(** * Balerin packaging manager: dependency resolution and component loading

    A shallow embedding of [balerin/packaging/manager.py] (class
    [PackagingManager]) together with the properties of its discovery
    filters, its dependency validation, its per-package loading protocol and
    its sweep-and-recurse loading pass.

    Python strings are [string]; lists are [list]; the dependency map (a
    plain [dict] that is only read with [get] and written by key) is a
    [gmap string (list string)]; the component tables (dicts whose iteration
    order is the discovery order) are association lists.  Exceptions and the
    mutation of the manager's attributes are threaded through a small
    state-and-exception monad. *)

From Stdlib Require Import String Ascii List Bool Arith Lia.
From stdpp Require Import gmap strings list.
Import ListNotations.

Local Open Scope string_scope.
Local Open Scope list_scope.
Local Open Scope nat_scope.

(** ** Python string operations used by the manager *)

Module Str.

(** [s.startswith(p)] *)
Definition startswith (s p : string) : bool := String.prefix p s.

(** [s.endswith(suffix)]: the suffix is [s] itself or a suffix of its tail. *)
Fixpoint endswith (s suffix : string) : bool :=
  String.eqb s suffix ||
  match s with
  | EmptyString => false
  | String _ s' => endswith s' suffix
  end.

(** [sub in s] *)
Fixpoint contains (s sub : string) : bool :=
  String.prefix sub s ||
  match s with
  | EmptyString => false
  | String _ s' => contains s' sub
  end.

(** [s.replace(old, new)] for a non-empty [old]: occurrences are replaced
    from left to right without overlap.  [skip] counts the characters of
    an occurrence that was just replaced and is still to be passed over. *)
Fixpoint replace_from (old new s : string) (skip : nat) : string :=
  match s with
  | EmptyString => EmptyString
  | String c s' =>
      match skip with
      | S k => replace_from old new s' k
      | O =>
          if String.prefix old s
          then String.append new (replace_from old new s' (String.length old - 1))
          else String c (replace_from old new s' 0)
      end
  end.

Definition replace (s old new : string) : string := replace_from old new s 0.

(** [s.split(sep)] for a one-character separator; never the empty list. *)
Fixpoint split (sep : ascii) (s : string) : list string :=
  match s with
  | EmptyString => [EmptyString]
  | String c s' =>
      if Ascii.eqb c sep then EmptyString :: split sep s'
      else match split sep s' with
           | [] => [String c EmptyString]
           | h :: t => String c h :: t
           end
  end.

(** ['.'.join(parts)] *)
Definition join_dots (parts : list string) : string := String.concat "." parts.

Definition split_dots (s : string) : list string := split "."%char s.

End Str.

(** [x in l] for a list of strings. *)
Definition mem (x : string) (l : list string) : bool := bool_decide (x ∈ l).

(** ** Data model *)

(** The attributes of a [Package] subclass that the manager reads
    ([base.py]). *)
Record PackageClass := {
  DEPENDS : list string;
  ENABLED : bool;
  COMPONENT_NAME : option string;
}.

(** The configuration fixed by [__init__], together with the one thing the
    manager reads from the host program: the [Package] subclass, if any,
    found in an imported package ([_get_package_class]). *)
Record Config := {
  _base_component : option string;
  _ignored_detector : option (string -> bool -> bool);
  _module_loader : bool;
  _ignored_packages : list string;
  _ignored_modules : list string;
  package_class_of : string -> option PackageClass;
}.

(** What the manager does to the outside world, in order. *)
Inductive Event :=
| EvLoad (name : string)            (* self.load(name), an import_module *)
| EvCustomLoad (name : string)      (* the module_loader callback on (name, module) *)
| EvLoadConfigs (package : string)  (* package_class() and its load_configs *)
| EvPackageLoaded (package : string)(* the package_loaded hooks *)
| EvAfterPackagesLoaded.            (* the after_packages_loaded hooks *)

Inductive Error :=
| PackageIsIgnoredError (name source : string)
| PackageIsDisabledError (name source : string)
| PackageNotExistedError (name source : string)
| SelfDependencyDetectedError (source : string)
| SubPackageDependencyDetectedError (root child : string)
| CircularDependencyDetectedError (source reverse : string)
| ComponentModuleNotFoundError (name package : string)
| InvalidPackageNameError (package_name : string).

(** A component table of one root: package name to its module names, in
    insertion order. *)
Abbreviation Components := (list (string * list string)).

(** The per-pass attributes of the manager. *)
Record State := {
  _all_packages : list string;
  _loaded_packages : list string;
  _disabled_packages : list string;
  _dependency_map : gmap string (list string);
  _components : list (string * Components);
  _is_loaded : bool;
  events : list Event;
}.

(** ** Name predicates *)

Section Names.
Variable cfg : Config.

(** [_is_equal]: segment-wise comparison where a ["*"] segment of the
    condition matches any segment and the condition may be shorter than
    the name. *)
Fixpoint _is_equal_loop (condition_parts parts : list string) : bool :=
  match condition_parts with
  | [] => true
  | item :: condition_parts' =>
      if negb (String.eqb item "*") && negb (String.eqb item (hd "" parts))
      then false
      else _is_equal_loop condition_parts' (tl parts)
  end.

Definition _is_equal (condition full_module_or_package : string) : bool :=
  let condition_parts := Str.split_dots condition in
  let full_module_or_package_parts := Str.split_dots full_module_or_package in
  if length full_module_or_package_parts <? length condition_parts then false
  else _is_equal_loop condition_parts full_module_or_package_parts.

Definition _is_detected_ignored (name : string) (is_module : bool) : bool :=
  match _ignored_detector cfg with
  | Some detector => detector name is_module
  | None => false
  end.

Definition _is_disabled_package (disabled_packages : list string)
    (package_name : string) : bool :=
  existsb (fun disabled =>
             Str.startswith package_name disabled || _is_equal disabled package_name)
          disabled_packages.

Definition _is_ignored_package (package_name : string) : bool :=
  if existsb (fun ignored =>
                Str.startswith package_name ignored || _is_equal ignored package_name)
             (_ignored_packages cfg)
  then true
  else _is_detected_ignored package_name false.

Definition _is_ignored_module (module_name : string) : bool :=
  if existsb (fun ignored => Str.endswith module_name ignored) (_ignored_modules cfg)
  then true
  else _is_detected_ignored module_name true.

(** [_contains root component_name] *)
Definition _contains (root component_name : string) : bool :=
  let parts_component := Str.split_dots component_name in
  let parts_root := Str.split_dots root in
  if length parts_component <? length parts_root then false
  else String.eqb (Str.join_dots (take (length parts_root) parts_component)) root.

Definition _get_module_name (package_name module_name : string) : string :=
  package_name +:+ "." +:+ module_name.

Definition _merge_module_name (package_name component_name : string) : string :=
  _get_module_name package_name (List.last (Str.split_dots component_name) "").

Definition _is_module (file_name : string) : bool :=
  Str.endswith file_name ".py" && negb (Str.contains file_name "__init__.py").

End Names.

(** ** Ordered dictionaries *)

Section Dict.
Context {V : Type}.

(** [d.get(k)] *)
Fixpoint dict_get (d : list (string * V)) (k : string) : option V :=
  match d with
  | [] => None
  | (k', v) :: d' => if String.eqb k' k then Some v else dict_get d' k
  end.

(** [d[k] = v]: an existing key keeps its place, a new one goes last. *)
Fixpoint dict_set (d : list (string * V)) (k : string) (v : V) : list (string * V) :=
  match d with
  | [] => [(k, v)]
  | (k', v') :: d' =>
      if String.eqb k' k then (k', v) :: d' else (k', v') :: dict_set d' k v
  end.

(** [d.setdefault(k, v)], for the dictionary it leaves behind. *)
Definition dict_setdefault (d : list (string * V)) (k : string) (v : V)
  : list (string * V) :=
  match dict_get d k with
  | Some _ => d
  | None => dict_set d k v
  end.

Definition keys (d : list (string * V)) : list string := map fst d.
End Dict.

(** ** The state-and-exception monad *)

(** How a call ends: it returns, it raises, or (in [_load_components] only)
    the recursion budget given to the model is used up. *)
Inductive Outcome (A : Type) :=
| Return (a : A)
| Raise (e : Error)
| Overflow.
Arguments Return {A} a.
Arguments Raise {A} e.
Arguments Overflow {A}.

Definition M (A : Type) : Type := State -> State * Outcome A.

Definition ret {A} (a : A) : M A := fun s => (s, Return a).
Definition raise {A} (e : Error) : M A := fun s => (s, Raise e).
Definition bind {A B} (m : M A) (k : A -> M B) : M B :=
  fun s =>
    match m s with
    | (s', Return a) => k a s'
    | (s', Raise e) => (s', Raise e)
    | (s', Overflow) => (s', Overflow)
    end.
Definition get : M State := fun s => (s, Return s).

Notation "x <~ m ;; k" := (bind m (fun x => k))
  (at level 62, m at next level, right associativity).
Notation "m ;;; k" := (bind m (fun _ => k))
  (at level 62, right associativity).

(** The attribute updates the manager performs, as functions on the state. *)

Definition add_events (evs : list Event) (s : State) : State :=
  {| _all_packages := _all_packages s;
     _loaded_packages := _loaded_packages s;
     _disabled_packages := _disabled_packages s;
     _dependency_map := _dependency_map s;
     _components := _components s;
     _is_loaded := _is_loaded s;
     events := events s ++ evs |}.

Definition add_loaded (package_name : string) (s : State) : State :=
  {| _all_packages := _all_packages s;
     _loaded_packages := _loaded_packages s ++ [package_name];
     _disabled_packages := _disabled_packages s;
     _dependency_map := _dependency_map s;
     _components := _components s;
     _is_loaded := _is_loaded s;
     events := events s |}.

Definition add_all (package_name : string) (s : State) : State :=
  {| _all_packages := _all_packages s ++ [package_name];
     _loaded_packages := _loaded_packages s;
     _disabled_packages := _disabled_packages s;
     _dependency_map := _dependency_map s;
     _components := _components s;
     _is_loaded := _is_loaded s;
     events := events s |}.

Definition add_disabled (package_name : string) (s : State) : State :=
  {| _all_packages := _all_packages s;
     _loaded_packages := _loaded_packages s;
     _disabled_packages := _disabled_packages s ++ [package_name];
     _dependency_map := _dependency_map s;
     _components := _components s;
     _is_loaded := _is_loaded s;
     events := events s |}.

Definition with_dependency (package_name : string) (dependencies : list string)
    (s : State) : State :=
  {| _all_packages := _all_packages s;
     _loaded_packages := _loaded_packages s;
     _disabled_packages := _disabled_packages s;
     _dependency_map := <[package_name := dependencies]> (_dependency_map s);
     _components := _components s;
     _is_loaded := _is_loaded s;
     events := events s |}.

Definition with_components (c : list (string * Components)) (s : State) : State :=
  {| _all_packages := _all_packages s;
     _loaded_packages := _loaded_packages s;
     _disabled_packages := _disabled_packages s;
     _dependency_map := _dependency_map s;
     _components := c;
     _is_loaded := _is_loaded s;
     events := events s |}.

Definition with_is_loaded (b : bool) (s : State) : State :=
  {| _all_packages := _all_packages s;
     _loaded_packages := _loaded_packages s;
     _disabled_packages := _disabled_packages s;
     _dependency_map := _dependency_map s;
     _components := _components s;
     _is_loaded := b;
     events := events s |}.

(** [_initialize] clears every per-pass attribute; the flag and what was
    already done to the outside world stay. *)
Definition cleared (s : State) : State :=
  {| _all_packages := [];
     _loaded_packages := [];
     _disabled_packages := [];
     _dependency_map := ∅;
     _components := [];
     _is_loaded := _is_loaded s;
     events := events s |}.

Definition modify (f : State -> State) : M unit := fun s => (f s, Return tt).

Definition emit (e : Event) : M unit := modify (add_events [e]).
(** [self._loaded_packages.append(package_name)] *)
Definition append_loaded (package_name : string) : M unit :=
  modify (add_loaded package_name).
(** [self._all_packages.append(package_name)] *)
Definition append_all (package_name : string) : M unit :=
  modify (add_all package_name).
(** [self._disabled_packages.append(package_name)] *)
Definition append_disabled (package_name : string) : M unit :=
  modify (add_disabled package_name).
(** [self._dependency_map[package_name] = dependencies] *)
Definition set_dependency (package_name : string) (dependencies : list string)
  : M unit := modify (with_dependency package_name dependencies).
Definition set_components (c : list (string * Components)) : M unit :=
  modify (with_components c).
Definition set_is_loaded (b : bool) : M unit := modify (with_is_loaded b).
Definition _initialize : M unit := modify cleared.

(** The manager as [__init__] leaves it. *)
Definition new_manager : State :=
  {| _all_packages := [];
     _loaded_packages := [];
     _disabled_packages := [];
     _dependency_map := ∅;
     _components := [];
     _is_loaded := false;
     events := [] |}.

(** ** The manager's operations *)

Section Manager.
Variable cfg : Config.

(** [load]: the import itself is the host's; the manager's part is that it
    happened. *)
Definition load (module_name : string) : M unit := emit (EvLoad module_name).

Definition _custom_load_module (name : string) : M unit :=
  if _module_loader cfg then emit (EvCustomLoad name) else ret tt.

Definition _package_loaded (package_name : string) : M unit :=
  emit (EvPackageLoaded package_name).

Definition _after_packages_loaded : M unit := emit EvAfterPackagesLoaded.

(** [_get_package_class] imports the package and looks for a [Package]
    subclass in it. *)
Definition _get_package_class (package_name : string) : M (option PackageClass) :=
  load package_name ;;;
  ret (package_class_of cfg package_name).

(** [name != component_module], where [component_module] may be [None]. *)
Definition differs (name : string) (component_module : option string) : bool :=
  match component_module with
  | Some c => negb (String.eqb name c)
  | None => true
  end.

(** The [for name in module_names] loop of [_load_component]. *)
Fixpoint load_modules (module_names : list string)
    (component_module : option string) : M unit :=
  match module_names with
  | [] => ret tt
  | name :: rest =>
      (if differs name component_module
       then load name ;;; _custom_load_module name
       else ret tt) ;;;
      load_modules rest component_module
  end.

Definition _load_component (package_name : string) (module_names : list string)
    (component_name : option string) : M unit :=
  load package_name ;;;
  let force_component :=
    match component_name with Some _ => true | None => false end in
  let component_name :=
    match component_name with Some c => Some c | None => _base_component cfg end in
  let component_module :=
    match component_name with
    | Some c => Some (_merge_module_name package_name c)
    | None => None
    end in
  (match component_module with
   | Some c =>
       if mem c module_names then load c ;;; _custom_load_module c
       else if force_component
            then raise (ComponentModuleNotFoundError c package_name)
            else ret tt
   | None => ret tt
   end) ;;;
  load_modules module_names component_module ;;;
  append_loaded package_name ;;;
  _package_loaded package_name.

Fixpoint _check_dependencies_exist (package_name : string)
    (dependencies : list string) : M unit :=
  match dependencies with
  | [] => ret tt
  | item :: rest =>
      s <~ get ;;
      if negb (mem item (_all_packages s)) then
        if _is_ignored_package cfg item
        then raise (PackageIsIgnoredError item package_name)
        else if _is_disabled_package (_disabled_packages s) item
             then raise (PackageIsDisabledError item package_name)
             else raise (PackageNotExistedError item package_name)
      else _check_dependencies_exist package_name rest
  end.

(** The [for item in dependencies] loop of [_validate_dependencies]. *)
Fixpoint check_items (package_name : string) (dependencies : list string) : M unit :=
  match dependencies with
  | [] => ret tt
  | item :: rest =>
      if _contains package_name item
      then raise (SubPackageDependencyDetectedError package_name item)
      else
        s <~ get ;;
        match _dependency_map s !! item with
        | Some reverse_dependencies =>
            if mem package_name reverse_dependencies
            then raise (CircularDependencyDetectedError package_name item)
            else check_items package_name rest
        | None => check_items package_name rest
        end
  end.

Definition _validate_dependencies (package_name : string)
    (dependencies : list string) : M unit :=
  _check_dependencies_exist package_name dependencies ;;;
  set_dependency package_name dependencies ;;;
  if length dependencies <=? 0 then ret tt
  else if mem package_name dependencies
       then raise (SelfDependencyDetectedError package_name)
       else check_items package_name dependencies.

Definition _is_dependencies_loaded (loaded_packages dependencies : list string)
  : bool :=
  forallb (fun dependency => mem dependency loaded_packages) dependencies.

Definition _is_parent_loaded (package_name : string) : M bool :=
  let items := Str.split_dots package_name in
  match length items with
  | 0 => raise (InvalidPackageNameError package_name)
  | S n =>
      let parent_package :=
        match n with
        | 0 => hd "" items
        | S _ => Str.join_dots (removelast items)
        end in
      if String.eqb parent_package package_name then ret true
      else s <~ get ;;
           ret (_is_dependencies_loaded (_loaded_packages s) [parent_package])
  end.

(** The body of the [for package in components] loop of
    [_load_components]: [true] when the package was loaded, [false] when
    it has to wait. *)
Definition load_or_defer (package : string) (modules : list string) : M bool :=
  package_class <~ _get_package_class package ;;
  let dependencies :=
    match package_class with Some c => DEPENDS c | None => [] end in
  _validate_dependencies package dependencies ;;;
  s <~ get ;;
  if (length dependencies <=? 0)
     || _is_dependencies_loaded (_loaded_packages s) dependencies
  then
    parent_loaded <~ _is_parent_loaded package ;;
    if parent_loaded then
      (match package_class with
       | Some c =>
           emit (EvLoadConfigs package) ;;;
           _load_component package modules (COMPONENT_NAME c)
       | None => _load_component package modules None
       end) ;;;
      ret true
    else ret false
  else ret false.

(** One sweep over a component table.  A dictionary yields each key once,
    so going through the items is going through the keys and reading
    [components[package]] for each. *)
Fixpoint sweep (components dependent_components : Components) : M Components :=
  match components with
  | [] => ret dependent_components
  | (package, modules) :: rest =>
      loaded <~ load_or_defer package modules ;;
      sweep rest (if loaded then dependent_components
                  else dict_set dependent_components package modules)
  end.

(** [_load_components], with the depth of recursion the interpreter still
    allows made explicit: the source itself has no bound. *)
Fixpoint _load_components (depth : nat) (components : Components) : M unit :=
  match depth with
  | 0 => fun s => (s, Overflow)
  | S depth' =>
      dependent_components <~ sweep components [] ;;
      if 0 <? length dependent_components
      then _load_components depth' dependent_components
      else ret tt
  end.

(** *** Discovery *)

(** The [for file_name in files] loop of [_find_loadable_components]:
    the module names it appends to [components[package_name]]. *)
Fixpoint found_modules (package_name : string) (files : list string) : list string :=
  match files with
  | [] => []
  | file_name :: rest =>
      if negb (_is_module file_name) then found_modules package_name rest
      else
        let module_name := Str.replace file_name ".py" "" in
        let full_module_name := _get_module_name package_name module_name in
        if _is_ignored_module cfg full_module_name
        then found_modules package_name rest
        else full_module_name :: found_modules package_name rest
  end.

(** What [_find_loadable_components] does with one directory that
    [_is_package] accepted: [package_name] is its dotted name and [files]
    its [os.listdir]. *)
Definition visit_package (single_root package_name : string) (files : list string)
  : M unit :=
  if _is_ignored_package cfg package_name then ret tt
  else
    package_class <~ _get_package_class package_name ;;
    if match package_class with Some c => negb (ENABLED c) | None => false end
    then append_disabled package_name
    else
      s <~ get ;;
      if _is_disabled_package (_disabled_packages s) package_name then ret tt
      else
        append_all package_name ;;;
        let roots := dict_setdefault (_components s) single_root [] in
        let components :=
          match dict_get roots single_root with Some c => c | None => [] end in
        let components := dict_setdefault components package_name [] in
        let modules :=
          match dict_get components package_name with Some l => l | None => [] end in
        set_components
          (dict_set roots single_root
             (dict_set components package_name
                (modules ++ found_modules package_name files))).

Fixpoint _find_loadable_components (single_root : string)
    (packages : list (string * list string)) : M unit :=
  match packages with
  | [] => ret tt
  | (package_name, files) :: rest =>
      visit_package single_root package_name files ;;;
      _find_loadable_components single_root rest
  end.

Fixpoint find_in_roots (roots : list (string * list (string * list string)))
  : M unit :=
  match roots with
  | [] => ret tt
  | (root, packages) :: rest =>
      _find_loadable_components root packages ;;;
      find_in_roots rest
  end.

Fixpoint load_tables (depth : nat) (tables : list (string * Components)) : M unit :=
  match tables with
  | [] => ret tt
  | (root, components) :: rest =>
      _load_components depth components ;;;
      load_tables depth rest
  end.

(** [load_components]: [roots] gives, for each root path, the package
    directories the walk reaches, in order, each with its files. *)
Definition load_components (depth : nat)
    (roots : list (string * list (string * list string))) : M unit :=
  s <~ get ;;
  if _is_loaded s then ret tt
  else
    _initialize ;;;
    find_in_roots roots ;;;
    s <~ get ;;
    load_tables depth (_components s) ;;;
    _after_packages_loaded ;;;
    set_is_loaded true.

End Manager.

(** ** Basic facts *)

Lemma mem_true x l : mem x l = true <-> x ∈ l.
Proof. unfold mem. apply bool_decide_eq_true. Qed.

Lemma mem_false x l : mem x l = false <-> x ∉ l.
Proof. unfold mem. apply bool_decide_eq_false. Qed.

Lemma add_events_nil s : add_events [] s = s.
Proof. destruct s. unfold add_events. simpl. by rewrite app_nil_r. Qed.

Lemma add_events_app a b s : add_events b (add_events a s) = add_events (a ++ b) s.
Proof. unfold add_events. simpl. by rewrite app_assoc. Qed.

Lemma bind_return {A B} (m : M A) (k : A -> M B) s s' a :
  m s = (s', Return a) -> bind m k s = k a s'.
Proof. unfold bind. by intros ->. Qed.

Lemma bind_raise {A B} (m : M A) (k : A -> M B) s s' e :
  m s = (s', Raise e) -> bind m k s = (s', Raise e).
Proof. unfold bind. by intros ->. Qed.

Lemma bind_overflow {A B} (m : M A) (k : A -> M B) s s' :
  m s = (s', Overflow) -> bind m k s = (s', Overflow).
Proof. unfold bind. by intros ->. Qed.

(** A configuration without filters or callbacks, over given package
    classes. *)
Definition plain_config (classes : string -> option PackageClass) : Config :=
  {| _base_component := None;
     _ignored_detector := None;
     _module_loader := false;
     _ignored_packages := [];
     _ignored_modules := [];
     package_class_of := classes |}.

Definition no_classes : string -> option PackageClass := fun _ => None.

(** The same with a module-loader callback. *)
Definition loader_config (classes : string -> option PackageClass) : Config :=
  {| _base_component := None;
     _ignored_detector := None;
     _module_loader := true;
     _ignored_packages := [];
     _ignored_modules := [];
     package_class_of := classes |}.

(** ** Loading one package *)

Section LoadComponent.
Variable cfg : Config.

(** What loading one module does to the outside world. *)
Definition module_events (name : string) : list Event :=
  EvLoad name :: (if _module_loader cfg then [EvCustomLoad name] else []).

Lemma load_module_run name s :
  (load name ;;; _custom_load_module cfg name) s
  = (add_events (module_events name) s, Return tt).
Proof.
  unfold module_events, _custom_load_module, load, emit, modify, bind, ret.
  destruct (_module_loader cfg); simpl; [by rewrite add_events_app|done].
Qed.

Lemma load_modules_run modules component_module s :
  load_modules cfg modules component_module s
  = (add_events
       (flat_map module_events
          (List.filter (fun name => differs name component_module) modules)) s,
     Return tt).
Proof.
  revert s. induction modules as [|name rest IH]; intros s; simpl.
  - by rewrite add_events_nil.
  - destruct (differs name component_module); simpl.
    + erewrite bind_return by apply load_module_run.
      rewrite IH, add_events_app. done.
    + unfold bind, ret. apply IH.
Qed.

Lemma filter_absent (c : string) (modules : list string) :
  c ∉ modules ->
  List.filter (fun name => differs name (Some c)) modules = modules.
Proof.
  induction modules as [|m rest IH]; intros Hc; [done|].
  apply not_elem_of_cons in Hc as [Hne Hrest].
  cbn [List.filter]. rewrite (IH Hrest).
  unfold differs. by destruct (String.eqb_spec m c).
Qed.

End LoadComponent.

(** C5. When the effective first module of a package (the package's own
    [COMPONENT_NAME], else the manager's [base_component]), merged with the
    package name, is among the package's modules, [_load_component] imports
    the package, then that module and runs the module-loader callback on it,
    and only then every other module in discovery order, each followed by its
    callback; the first module is not loaded a second time. *)
Theorem first_module_is_loaded_first cfg s package modules component_name c :
  match component_name with Some x => Some x | None => _base_component cfg end = Some c ->
  _merge_module_name package c ∈ modules ->
  _load_component cfg package modules component_name s
  = (add_events [EvPackageLoaded package]
       (add_loaded package
          (add_events
             (EvLoad package
                :: module_events cfg (_merge_module_name package c)
                ++ flat_map (module_events cfg)
                     (List.filter
                        (fun name => negb (String.eqb name (_merge_module_name package c)))
                        modules))
             s)),
     Return tt).
Proof.
  intros Hc Hin. unfold _load_component.
  assert (Hm : match match component_name with
                     | Some x => Some x | None => _base_component cfg end with
               | Some x => Some (_merge_module_name package x)
               | None => None
               end = Some (_merge_module_name package c)) by (by rewrite Hc).
  rewrite Hm. apply mem_true in Hin. rewrite Hin.
  unfold load at 1. unfold emit, modify. unfold bind at 1.
  erewrite bind_return by apply load_module_run.
  erewrite bind_return by apply load_modules_run.
  unfold append_loaded, _package_loaded, emit, modify, bind. simpl.
  rewrite !add_events_app. done.
Qed.

(** The scenario of the specification, with the modules discovered in the
    other order: [app.jobs] declares [scheduler] as its first module. *)
Lemma first_module_is_loaded_first_witness :
  events (fst (_load_component
                 (loader_config no_classes) "app.jobs"
                 ["app.jobs.worker"; "app.jobs.scheduler"] (Some "scheduler")
                 new_manager))
  = [EvLoad "app.jobs";
     EvLoad "app.jobs.scheduler"; EvCustomLoad "app.jobs.scheduler";
     EvLoad "app.jobs.worker"; EvCustomLoad "app.jobs.worker";
     EvPackageLoaded "app.jobs"].
Proof.
  rewrite (first_module_is_loaded_first (loader_config no_classes) new_manager
             "app.jobs" ["app.jobs.worker"; "app.jobs.scheduler"]
             (Some "scheduler") "scheduler");
    [reflexivity | reflexivity | apply mem_true; reflexivity].
Defined.

(** C6. With the merged first-module name absent from the package's
    modules: an explicit [COMPONENT_NAME] makes [_load_component] raise
    [ComponentModuleNotFoundError] right after importing the package; when
    only the manager's [base_component] applies nothing is raised, every
    module is loaded in discovery order and the package is recorded as
    loaded. *)
Theorem missing_first_module cfg s package modules c :
  _merge_module_name package c ∉ modules ->
  _load_component cfg package modules (Some c) s
  = (add_events [EvLoad package] s,
     Raise (ComponentModuleNotFoundError (_merge_module_name package c) package))
  /\ (_base_component cfg = Some c ->
      _load_component cfg package modules None s
      = (add_events [EvPackageLoaded package]
           (add_loaded package
              (add_events (EvLoad package :: flat_map (module_events cfg) modules) s)),
         Return tt)).
Proof.
  intros Hout. pose proof Hout as Hmem. apply mem_false in Hmem. split.
  - unfold _load_component. rewrite Hmem.
    unfold load, emit, modify, raise, bind. done.
  - intros Hbase. unfold _load_component. rewrite Hbase, Hmem.
    unfold load at 1. unfold emit, modify, ret. unfold bind at 1. unfold bind at 1.
    erewrite bind_return by apply load_modules_run.
    rewrite filter_absent by done.
    unfold append_loaded, _package_loaded, emit, modify, bind.
    rewrite !add_events_app. done.
Qed.

Lemma missing_first_module_witness :
  snd (_load_component (plain_config no_classes) "app.jobs"
         ["app.jobs.worker"] (Some "scheduler") new_manager)
  = Raise (ComponentModuleNotFoundError "app.jobs.scheduler" "app.jobs")
  /\ _loaded_packages
       (fst (_load_component
               {| _base_component := Some "scheduler";
                  _ignored_detector := None;
                  _module_loader := true;
                  _ignored_packages := [];
                  _ignored_modules := [];
                  package_class_of := no_classes |}
               "app.jobs" ["app.jobs.worker"] None new_manager))
     = ["app.jobs"].
Proof.
  split.
  - rewrite (proj1 (missing_first_module (plain_config no_classes) new_manager
                      "app.jobs" ["app.jobs.worker"] "scheduler"
                      ltac:(apply mem_false; reflexivity))).
    reflexivity.
  - reflexivity.
Defined.

(** ** Validation of declared dependencies *)

Section Validation.
Variable cfg : Config.

Lemma check_dependencies_exist_ok package dependencies s :
  (forall x, x ∈ dependencies -> x ∈ _all_packages s) ->
  _check_dependencies_exist cfg package dependencies s = (s, Return tt).
Proof.
  induction dependencies as [|item rest IH]; intros Hall; simpl; [done|].
  unfold bind, get.
  assert (Hitem : mem item (_all_packages s) = true)
    by (apply mem_true, Hall, list_elem_of_here).
  rewrite Hitem. simpl. apply IH. intros x Hx. apply Hall. by right.
Qed.

Lemma check_dependencies_exist_first_absent package before item after s :
  (forall x, x ∈ before -> x ∈ _all_packages s) ->
  item ∉ _all_packages s ->
  _check_dependencies_exist cfg package (before ++ item :: after) s
  = (s, Raise (if _is_ignored_package cfg item
               then PackageIsIgnoredError item package
               else if _is_disabled_package (_disabled_packages s) item
                    then PackageIsDisabledError item package
                    else PackageNotExistedError item package)).
Proof.
  induction before as [|b rest IH]; intros Hall Hout; simpl; unfold bind, get.
  - apply mem_false in Hout. rewrite Hout. simpl.
    unfold raise.
    destruct (_is_ignored_package cfg item); [done|].
    by destruct (_is_disabled_package (_disabled_packages s) item).
  - assert (Hb : mem b (_all_packages s) = true)
      by (apply mem_true, Hall, list_elem_of_here).
    rewrite Hb. simpl. apply IH; [|done]. intros x Hx. apply Hall. by right.
Qed.

(** Every list with an absent name splits at its first absent name. *)
Lemma first_absent_split (present : list string) (l : list string) (x : string) :
  x ∈ l -> x ∉ present ->
  exists before item after,
    l = before ++ item :: after
    /\ (forall y, y ∈ before -> y ∈ present)
    /\ item ∉ present.
Proof.
  induction l as [|a l IH]; intros Hin Hout; [by apply elem_of_nil in Hin|].
  destruct (decide (a ∈ present)) as [Ha|Ha].
  - apply elem_of_cons in Hin as [->|Hin]; [done|].
    destruct (IH Hin Hout) as (before & item & after & -> & Hb & Hi).
    exists (a :: before), item, after. split; [done|]. split; [|done].
    intros y [->|Hy]%elem_of_cons; auto.
  - exists [], a, l. split; [done|]. split; [|done].
    intros y Hy. by apply elem_of_nil in Hy.
Qed.

(** The run of [_validate_dependencies] once the existence check has
    passed. *)
Lemma validate_after_check package dependencies s :
  (forall x, x ∈ dependencies -> x ∈ _all_packages s) ->
  _validate_dependencies cfg package dependencies s
  = (if length dependencies <=? 0 then ret tt
     else if mem package dependencies
          then raise (SelfDependencyDetectedError package)
          else check_items package dependencies)
      (with_dependency package dependencies s).
Proof.
  intros Hall. unfold _validate_dependencies.
  erewrite bind_return by (by apply check_dependencies_exist_ok).
  unfold set_dependency, modify, bind. done.
Qed.

(** The run of [_validate_dependencies] when the existence check fails. *)
Lemma validate_first_absent package before item after s :
  (forall x, x ∈ before -> x ∈ _all_packages s) ->
  item ∉ _all_packages s ->
  _validate_dependencies cfg package (before ++ item :: after) s
  = (s, Raise (if _is_ignored_package cfg item
               then PackageIsIgnoredError item package
               else if _is_disabled_package (_disabled_packages s) item
                    then PackageIsDisabledError item package
                    else PackageNotExistedError item package)).
Proof.
  intros Hall Hout. unfold _validate_dependencies.
  erewrite bind_raise; [done|].
  by apply check_dependencies_exist_first_absent.
Qed.

End Validation.

(** C4 (as the code has it). The existence check goes through the declared
    dependencies in order and raises at the first one that is absent from
    [_all_packages]: validation then fails, with the dependency map
    untouched, with [PackageIsIgnoredError] if that name is ignored, else
    [PackageIsDisabledError] if it is disabled (directly or through a
    disabled prefix), else [PackageNotExistedError]. *)
Theorem first_absent_dependency_error cfg s package before item after :
  (forall x, x ∈ before -> x ∈ _all_packages s) ->
  item ∉ _all_packages s ->
  _validate_dependencies cfg package (before ++ item :: after) s
  = (s, Raise (if _is_ignored_package cfg item
               then PackageIsIgnoredError item package
               else if _is_disabled_package (_disabled_packages s) item
                    then PackageIsDisabledError item package
                    else PackageNotExistedError item package)).
Proof.
  intros Hall Hout. unfold _validate_dependencies.
  erewrite bind_raise; [done|].
  by apply check_dependencies_exist_first_absent.
Qed.

(** A manager that has discovered [app] and [app.api] and ignores
    everything under [app.legacy]. *)
Definition legacy_config : Config :=
  {| _base_component := None;
     _ignored_detector := None;
     _module_loader := false;
     _ignored_packages := ["app.legacy"];
     _ignored_modules := [];
     package_class_of := no_classes |}.

Definition discovered (all_packages disabled_packages : list string) : State :=
  {| _all_packages := all_packages;
     _loaded_packages := [];
     _disabled_packages := disabled_packages;
     _dependency_map := ∅;
     _components := [];
     _is_loaded := false;
     events := [] |}.

Lemma first_absent_dependency_error_witness :
  _validate_dependencies legacy_config "app.api" ["app"; "app.legacy.v1"; "app.old"]
    (discovered ["app"; "app.api"] [])
  = (discovered ["app"; "app.api"] [],
     Raise (PackageIsIgnoredError "app.legacy.v1" "app.api")).
Proof.
  apply (first_absent_dependency_error legacy_config
           (discovered ["app"; "app.api"] []) "app.api"
           ["app"] "app.legacy.v1" ["app.old"]).
  - intros x ->%list_elem_of_singleton. apply mem_true. reflexivity.
  - apply mem_false. reflexivity.
Defined.

(** The claim for every absent dependency fails at one that is not the
    first absent one: [app.legacy.v1] is declared, absent and ignored, and
    the error is the one of [app.old], listed before it. *)
Lemma absent_dependency_error_not_for_each :
  ~ (forall cfg s package dependencies d,
        d ∈ dependencies -> d ∉ _all_packages s ->
        snd (_validate_dependencies cfg package dependencies s)
        = Raise (if _is_ignored_package cfg d
                 then PackageIsIgnoredError d package
                 else if _is_disabled_package (_disabled_packages s) d
                      then PackageIsDisabledError d package
                      else PackageNotExistedError d package)).
Proof.
  intros H.
  specialize (H legacy_config (discovered ["app"; "app.api"] []) "app.api"
                ["app.old"; "app.legacy.v1"] "app.legacy.v1").
  assert (Hin : "app.legacy.v1" ∈ ["app.old"; "app.legacy.v1"])
    by (apply mem_true; reflexivity).
  assert (Hout : "app.legacy.v1" ∉ _all_packages (discovered ["app"; "app.api"] []))
    by (apply mem_false; reflexivity).
  specialize (H Hin Hout). vm_compute in H. discriminate H.
Qed.

(** ** Discovery filters *)

Lemma existsb_elem_of {A} (f : A -> bool) (l : list A) (x : A) :
  x ∈ l -> f x = true -> existsb f l = true.
Proof.
  intros Hin Hf. apply existsb_exists. exists x. split; [|done].
  by apply list_elem_of_In.
Qed.

(** C10. The ignore list and the disabled list are matched by
    [str.startswith] on the whole dotted name, with no regard for segment
    boundaries: a package whose name starts with an ignore entry is ignored
    and [_find_loadable_components] passes over it without a trace; a
    package whose name starts with a disabled entry is disabled and is
    registered neither in [_all_packages] nor in the component table. *)
Theorem raw_prefix_exclusion cfg s root name files entry :
  Str.startswith name entry = true ->
  (entry ∈ _ignored_packages cfg ->
   _is_ignored_package cfg name = true
   /\ visit_package cfg root name files s = (s, Return tt))
  /\ (entry ∈ _disabled_packages s ->
      _is_disabled_package (_disabled_packages s) name = true
      /\ _all_packages (fst (visit_package cfg root name files s)) = _all_packages s
      /\ _components (fst (visit_package cfg root name files s)) = _components s).
Proof.
  intros Hpre. split.
  - intros Hin.
    assert (Hig : _is_ignored_package cfg name = true).
    { unfold _is_ignored_package.
      rewrite (existsb_elem_of _ _ entry Hin); [done|]. by rewrite Hpre. }
    split; [done|]. unfold visit_package. by rewrite Hig.
  - intros Hin.
    assert (Hdis : _is_disabled_package (_disabled_packages s) name = true).
    { unfold _is_disabled_package.
      apply (existsb_elem_of _ _ entry Hin). by rewrite Hpre. }
    split; [done|]. unfold visit_package.
    destruct (_is_ignored_package cfg name); [done|].
    unfold _get_package_class, load, emit, modify, bind, ret, get, append_disabled.
    simpl.
    destruct (match package_class_of cfg name with
              | Some c => negb (ENABLED c)
              | None => false
              end); [done|].
    change (_disabled_packages (add_events [EvLoad name] s))
      with (_disabled_packages s).
    by rewrite Hdis.
Qed.

(** The example of the claim: the entry [app.api] also excludes the
    package [app.api2], which no segment-wise comparison matches. *)
Lemma raw_prefix_exclusion_witness :
  _is_equal "app.api" "app.api2" = false
  /\ _is_ignored_package
       {| _base_component := None; _ignored_detector := None;
          _module_loader := false; _ignored_packages := ["app.api"];
          _ignored_modules := []; package_class_of := no_classes |}
       "app.api2" = true
  /\ _is_disabled_package
       (_disabled_packages (discovered ["app"] ["app.api"])) "app.api2" = true.
Proof.
  split; [reflexivity|].
  pose proof (raw_prefix_exclusion
                {| _base_component := None; _ignored_detector := None;
                   _module_loader := false; _ignored_packages := ["app.api"];
                   _ignored_modules := []; package_class_of := no_classes |}
                (discovered ["app"] ["app.api"]) "/srv/app" "app.api2"
                ["__init__.py"] "app.api" eq_refl) as [Hig Hdis].
  split.
  - apply Hig. apply mem_true. reflexivity.
  - apply Hdis. apply mem_true. reflexivity.
Defined.

(** ** Module files *)

(** C7 (the code departs from it). [_is_module] rejects every file name
    that merely contains [__init__.py], and the module name is the file name
    with every occurrence of [.py] removed, not only the extension: in a
    package directory holding [__init__.py], [old__init__.py], [models.py]
    and [conf.pytest.py], the file [old__init__.py] is left out of the module
    list although it is not the marker file, and [conf.pytest.py] is
    recorded as [app.db.conftest]. *)
Theorem module_list_at_init_like_names :
  Str.endswith "old__init__.py" ".py" = true
  /\ String.eqb "old__init__.py" "__init__.py" = false
  /\ _is_module "old__init__.py" = false
  /\ found_modules (plain_config no_classes) "app.db"
       ["__init__.py"; "old__init__.py"; "models.py"; "conf.pytest.py"]
     = ["app.db.models"; "app.db.conftest"]
  /\ _components
       (fst (visit_package (plain_config no_classes) "/srv/app" "app.db"
               ["__init__.py"; "old__init__.py"; "models.py"]
               (discovered ["app"] [])))
     = [("/srv/app", [("app.db", ["app.db.models"])])].
Proof. repeat split; reflexivity. Qed.

(** ** What one step of the loading loop does to the state *)

(** The dependencies [_load_components] reads for a package: the [DEPENDS]
    of its [Package] class, or none without a class. *)
Definition declared_dependencies (cfg : Config) (package : string) : list string :=
  match package_class_of cfg package with
  | Some c => DEPENDS c
  | None => []
  end.

Section Effects.
Variable cfg : Config.

Lemma check_dependencies_exist_state package dependencies s :
  fst (_check_dependencies_exist cfg package dependencies s) = s
  /\ snd (_check_dependencies_exist cfg package dependencies s) <> Overflow.
Proof.
  induction dependencies as [|item rest IH]; simpl; [done|].
  unfold bind, get, raise.
  destruct (mem item (_all_packages s)); simpl; [apply IH|].
  destruct (_is_ignored_package cfg item); [done|].
  by destruct (_is_disabled_package (_disabled_packages s) item).
Qed.

Lemma check_items_state package dependencies s :
  fst (check_items package dependencies s) = s
  /\ snd (check_items package dependencies s) <> Overflow.
Proof.
  induction dependencies as [|item rest IH]; simpl; [done|].
  unfold raise, bind, get.
  destruct (_contains package item); [done|].
  destruct (_dependency_map s !! item) as [rev|]; [|apply IH].
  destruct (mem package rev); [done|apply IH].
Qed.

(** [_validate_dependencies] either fails in the existence check, with the
    state as it was, or writes the entry of the package and then returns
    or raises.  It returns only for a package that does not list itself. *)
Lemma validate_cases package dependencies s :
  (exists e, _validate_dependencies cfg package dependencies s = (s, Raise e))
  \/ (exists o,
        _validate_dependencies cfg package dependencies s
        = (with_dependency package dependencies s, o)
        /\ o <> Overflow
        /\ (forall x, x ∈ dependencies -> x ∈ _all_packages s)
        /\ (o = Return tt -> package ∉ dependencies)).
Proof.
  unfold _validate_dependencies.
  destruct (_check_dependencies_exist cfg package dependencies s) as [s1 o1] eqn:Hc.
  pose proof (check_dependencies_exist_state package dependencies s) as [Hs Ho].
  rewrite Hc in Hs, Ho. simpl in Hs, Ho. subst s1.
  destruct o1 as [[]|e|]; [|left; exists e; by erewrite bind_raise|done].
  right. erewrite bind_return by done.
  unfold set_dependency, modify, bind.
  assert (Hall : forall x, x ∈ dependencies -> x ∈ _all_packages s).
  { clear Ho. revert Hc. induction dependencies as [|item rest IH]; simpl.
    - intros _ x Hx. by apply elem_of_nil in Hx.
    - unfold bind, get, raise.
      destruct (mem item (_all_packages s)) eqn:Hm; simpl.
      + intros Hc x [->|Hx]%elem_of_cons; [by apply mem_true|by apply IH].
      + destruct (_is_ignored_package cfg item); [done|].
        by destruct (_is_disabled_package (_disabled_packages s) item). }
  destruct dependencies as [|d rest].
  { exists (Return tt). simpl. unfold ret. repeat split; try done.
    intros _ Hx. by apply elem_of_nil in Hx. }
  cbn [length Nat.leb].
  destruct (mem package (d :: rest)) eqn:Hself.
  { exists (Raise (SelfDependencyDetectedError package)). by repeat split. }
  pose proof (check_items_state package (d :: rest)
                (with_dependency package (d :: rest) s)) as [Hs' Ho'].
  destruct (check_items package (d :: rest) (with_dependency package (d :: rest) s))
    as [s2 o2]. simpl in Hs', Ho'. subst s2.
  exists o2. repeat split; try done. intros _. by apply mem_false.
Qed.

(** [_load_component] either raises, having only imported, or returns,
    having imported and recorded the package as loaded. *)
Lemma load_component_cases package modules component_name s :
  (exists evs e,
      _load_component cfg package modules component_name s
      = (add_events evs s, Raise e))
  \/ (exists evs,
        _load_component cfg package modules component_name s
        = (add_events [EvPackageLoaded package]
             (add_loaded package (add_events evs s)), Return tt)).
Proof.
  unfold _load_component.
  unfold load at 1. unfold emit, modify. unfold bind at 1.
  set (cm := match match component_name with
                   | Some c => Some c | None => _base_component cfg end with
             | Some c => Some (_merge_module_name package c)
             | None => None
             end).
  assert (Hrest : forall evs,
             (load_modules cfg modules cm ;;;
              append_loaded package ;;; _package_loaded package)
               (add_events evs s)
             = (add_events [EvPackageLoaded package]
                  (add_loaded package
                     (add_events
                        (evs ++ flat_map (module_events cfg)
                                  (List.filter (fun n => differs n cm) modules)) s)),
                Return tt)).
  { intros evs. erewrite bind_return by apply load_modules_run.
    unfold append_loaded, _package_loaded, emit, modify, bind.
    by rewrite add_events_app. }
  destruct cm as [c|].
  - destruct (mem c modules).
    + right. eexists.
      erewrite bind_return by reflexivity.
      erewrite bind_return by apply load_module_run.
      rewrite add_events_app. apply Hrest.
    + destruct component_name as [c'|].
      * left. exists [EvLoad package]. eexists. reflexivity.
      * right. eexists. erewrite bind_return by reflexivity. apply Hrest.
  - right. eexists. erewrite bind_return by reflexivity. apply Hrest.
Qed.

End Effects.

Section Step.
Variable cfg : Config.

Lemma is_parent_loaded_state package s :
  exists o, _is_parent_loaded package s = (s, o) /\ o <> Overflow.
Proof.
  unfold _is_parent_loaded.
  destruct (length (Str.split_dots package)) as [|n];
    [by eexists|].
  match goal with |- context [String.eqb ?a ?b] => destruct (String.eqb a b) end;
    by eexists.
Qed.

(** The possible results of one step of the loop on [package], from the
    state [s]. *)
Inductive step_result (package : string) (s : State)
  : State * Outcome bool -> Prop :=
| step_raised s' e :
    _all_packages s' = _all_packages s ->
    _disabled_packages s' = _disabled_packages s ->
    _loaded_packages s' = _loaded_packages s ->
    (_dependency_map s' = _dependency_map s
     \/ _dependency_map s'
        = <[package := declared_dependencies cfg package]> (_dependency_map s)) ->
    step_result package s (s', Raise e)
| step_deferred s' :
    _all_packages s' = _all_packages s ->
    _disabled_packages s' = _disabled_packages s ->
    _loaded_packages s' = _loaded_packages s ->
    _dependency_map s'
    = <[package := declared_dependencies cfg package]> (_dependency_map s) ->
    step_result package s (s', Return false)
| step_loaded s' :
    _all_packages s' = _all_packages s ->
    _disabled_packages s' = _disabled_packages s ->
    _loaded_packages s' = _loaded_packages s ++ [package] ->
    _dependency_map s'
    = <[package := declared_dependencies cfg package]> (_dependency_map s) ->
    (forall d, d ∈ declared_dependencies cfg package -> d ∈ _loaded_packages s) ->
    package ∉ declared_dependencies cfg package ->
    step_result package s (s', Return true).

Lemma forallb_mem (loaded dependencies : list string) :
  _is_dependencies_loaded loaded dependencies = true ->
  forall d, d ∈ dependencies -> d ∈ loaded.
Proof.
  unfold _is_dependencies_loaded. intros H d Hd.
  rewrite forallb_forall in H. apply mem_true, H. by apply list_elem_of_In.
Qed.

Lemma load_or_defer_result package modules s :
  step_result package s (load_or_defer cfg package modules s).
Proof.
  unfold load_or_defer.
  erewrite bind_return by reflexivity.
  fold (declared_dependencies cfg package).
  set (deps := declared_dependencies cfg package).
  set (s1 := add_events [EvLoad package] s).
  destruct (validate_cases cfg package deps s1) as [[e He]|(o & Hv & Ho & Hall & Hself)].
  { erewrite bind_raise by exact He. by constructor; auto. }
  destruct o as [[]|e|]; [|erewrite bind_raise by exact Hv; by constructor; auto|done].
  erewrite bind_return by exact Hv.
  set (s2 := with_dependency package deps s1).
  erewrite bind_return by reflexivity.
  destruct ((length deps <=? 0) || _is_dependencies_loaded (_loaded_packages s2) deps)
    eqn:Hready; [|by constructor].
  destruct (is_parent_loaded_state package s2) as (po & Hp & Hpo).
  destruct po as [b|e|]; [|erewrite bind_raise by exact Hp; by constructor; auto|done].
  erewrite bind_return by exact Hp.
  destruct b; [|by constructor].
  assert (Hdeps : forall d, d ∈ deps -> d ∈ _loaded_packages s).
  { apply orb_true_iff in Hready as [Hlen|Hl].
    - destruct deps; [|done]. intros d Hd. by apply elem_of_nil in Hd.
    - by apply forallb_mem. }
  assert (Hlc : forall s3 component_name,
             _all_packages s3 = _all_packages s ->
             _disabled_packages s3 = _disabled_packages s ->
             _loaded_packages s3 = _loaded_packages s ->
             _dependency_map s3 = <[package := deps]> (_dependency_map s) ->
             step_result package s
               ((_load_component cfg package modules component_name ;;; ret true) s3)).
  { intros s3 cn H1 H2 H3 H4.
    destruct (load_component_cases cfg package modules cn s3)
      as [(evs & e & Hl)|(evs & Hl)].
    - erewrite bind_raise by exact Hl. constructor; auto.
    - erewrite bind_return by exact Hl. unfold ret.
      constructor; simpl; auto. by rewrite H3. }
  destruct (package_class_of cfg package) as [c|] eqn:Hclass.
  - change (step_result package s
              ((_load_component cfg package modules (COMPONENT_NAME c) ;;; ret true)
                 (add_events [EvLoadConfigs package] s2))).
    apply (Hlc (add_events [EvLoadConfigs package] s2)); done.
  - apply (Hlc s2); done.
Qed.

End Step.

(** ** Invariants of the loading pass *)

Section Invariants.
Variable cfg : Config.
Variable Inv : State -> Prop.
Hypothesis step_keeps :
  forall package modules s, Inv s -> Inv (fst (load_or_defer cfg package modules s)).

Lemma sweep_keeps components waiting s :
  Inv s -> Inv (fst (sweep cfg components waiting s)).
Proof.
  revert waiting s.
  induction components as [|[package modules] rest IH]; intros waiting s HI;
    [done|].
  cbn [sweep]. unfold bind at 1.
  pose proof (step_keeps package modules s HI) as H1.
  destruct (load_or_defer cfg package modules s) as [s1 [b|e|]]; simpl in H1;
    [by apply IH|done|done].
Qed.

Lemma load_components_keeps depth components s :
  Inv s -> Inv (fst (_load_components cfg depth components s)).
Proof.
  revert components s. induction depth as [|depth IH]; intros components s HI;
    [done|].
  cbn [_load_components]. unfold bind at 1.
  pose proof (sweep_keeps components [] s HI) as H1.
  destruct (sweep cfg components [] s) as [s1 [d|e|]]; simpl in H1; [|done|done].
  destruct (0 <? length d); [by apply IH|done].
Qed.

Lemma load_tables_keeps depth tables s :
  Inv s -> Inv (fst (load_tables cfg depth tables s)).
Proof.
  revert s. induction tables as [|[root components] rest IH]; intros s HI; [done|].
  cbn [load_tables]. unfold bind at 1.
  pose proof (load_components_keeps depth components s HI) as H1.
  destruct (_load_components cfg depth components s) as [s1 [[]|e|]];
    simpl in H1; [by apply IH|done|done].
Qed.

End Invariants.

Section Sweeps.
Variable cfg : Config.

(** A sweep never uses up the recursion budget: it does not recurse. *)
Lemma sweep_no_overflow components waiting s :
  snd (sweep cfg components waiting s) <> Overflow.
Proof.
  revert waiting s.
  induction components as [|[package modules] rest IH]; intros waiting s;
    [done|].
  cbn [sweep]. unfold bind at 1.
  pose proof (load_or_defer_result cfg package modules s) as H.
  destruct (load_or_defer cfg package modules s) as [s1 [b|e|]];
    [apply IH|done|inversion H].
Qed.

Lemma dict_set_length {V} (d : list (string * V)) k v :
  length (dict_set d k v) <= S (length d).
Proof.
  induction d as [|[k' v'] d IH]; simpl; [lia|].
  destruct (String.eqb k' k); simpl; lia.
Qed.

(** The packages a sweep leaves waiting are no more than it went
    through. *)
Lemma sweep_deferred_length components waiting s s' d :
  sweep cfg components waiting s = (s', Return d) ->
  length d <= length waiting + length components.
Proof.
  revert waiting s.
  induction components as [|[package modules] rest IH]; intros waiting s.
  - cbn [sweep]. unfold ret. intros [= _ <-]. simpl. lia.
  - cbn [sweep]. unfold bind at 1.
    destruct (load_or_defer cfg package modules s) as [s1 [b|e|]]; [|done|done].
    intros H%IH. cbn [length].
    destruct b; [lia|].
    pose proof (dict_set_length waiting package modules). lia.
Qed.

End Sweeps.

(** ** Self-dependency *)

Lemma never_loaded_step cfg P package modules s :
  P ∈ declared_dependencies cfg P ->
  P ∉ _loaded_packages s ->
  P ∉ _loaded_packages (fst (load_or_defer cfg package modules s)).
Proof.
  intros Hself Hout.
  pose proof (load_or_defer_result cfg package modules s) as H.
  inversion H as [s' e _ _ Hl _ Heq|s' _ _ Hl _ Heq|s' _ _ Hl _ _ Hnot Heq];
    simpl; rewrite Hl; [done|done|].
  intros [Hin|Hin%list_elem_of_singleton]%elem_of_app; [done|]. by subst.
Qed.

(** C9 (as the code has it). One step of the loading loop on a package that
    lists itself in its [DEPENDS] always raises, having done nothing but
    import the package: no module is loaded and the package is not recorded
    as loaded.  The error is [SelfDependencyDetectedError] when every
    declared dependency is in [_all_packages]; otherwise it is the error of
    the existence check, which runs first, for the first absent dependency.
    Such a package is never added to [_loaded_packages] by a pass. *)
Theorem self_dependency_fails cfg s package modules :
  package ∈ declared_dependencies cfg package ->
  (exists s' e,
      load_or_defer cfg package modules s = (s', Raise e)
      /\ events s' = events s ++ [EvLoad package]
      /\ _loaded_packages s' = _loaded_packages s
      /\ ((forall d, d ∈ declared_dependencies cfg package -> d ∈ _all_packages s) ->
          e = SelfDependencyDetectedError package)
      /\ (forall before item after,
             declared_dependencies cfg package = before ++ item :: after ->
             (forall x, x ∈ before -> x ∈ _all_packages s) ->
             item ∉ _all_packages s ->
             e = if _is_ignored_package cfg item
                 then PackageIsIgnoredError item package
                 else if _is_disabled_package (_disabled_packages s) item
                      then PackageIsDisabledError item package
                      else PackageNotExistedError item package))
  /\ (package ∉ _loaded_packages s ->
      (forall depth components,
          package ∉ _loaded_packages (fst (_load_components cfg depth components s)))
      /\ (forall depth tables,
             package ∉ _loaded_packages (fst (load_tables cfg depth tables s)))).
Proof.
  intros Hself. split.
  - unfold load_or_defer. erewrite bind_return by reflexivity.
    fold (declared_dependencies cfg package).
    set (deps := declared_dependencies cfg package) in *.
    set (s1 := add_events [EvLoad package] s).
    destruct (decide (Forall (fun d => d ∈ _all_packages s) deps)) as [Hall|Hnot].
    + rewrite Forall_forall in Hall.
      assert (Hv : _validate_dependencies cfg package deps s1
                   = (with_dependency package deps s1,
                      Raise (SelfDependencyDetectedError package))).
      { rewrite validate_after_check by exact Hall.
        destruct deps as [|d rest]; [by apply elem_of_nil in Hself|].
        cbn [length Nat.leb]. apply mem_true in Hself. by rewrite Hself. }
      erewrite bind_raise by exact Hv.
      eexists _, _. split; [done|]. repeat split; try done.
      intros before item after Hsplit _ Hout. exfalso. apply Hout, Hall.
      rewrite Hsplit. apply elem_of_app. right. left.
    + apply not_Forall_Exists in Hnot; [|apply _].
      apply Exists_exists in Hnot as (x & Hx & Hxout).
      destruct (first_absent_split (_all_packages s) deps x Hx Hxout)
        as (before0 & item0 & after0 & Hsplit0 & Hb0 & Hi0).
      assert (Hv := validate_first_absent cfg package before0 item0 after0 s1
                      Hb0 Hi0).
      rewrite <- Hsplit0 in Hv.
      erewrite bind_raise by exact Hv.
      eexists _, _. split; [done|]. repeat split; try done.
      * intros Hall. exfalso. by apply Hxout, Hall.
      * intros before item after Hsplit Hb Hi.
        assert (Hv' := validate_first_absent cfg package before item after s1
                         Hb Hi).
        rewrite <- Hsplit, Hv in Hv'. by injection Hv'.
  - intros Hout. split; intros depth c.
    + apply (load_components_keeps cfg (fun st => package ∉ _loaded_packages st));
        [|done].
      intros p m st. by apply never_loaded_step.
    + apply (load_tables_keeps cfg (fun st => package ∉ _loaded_packages st));
        [|done].
      intros p m st. by apply never_loaded_step.
Qed.

(** [app.a] lists itself and a package that does not exist. *)
Definition self_classes (name : string) : option PackageClass :=
  if String.eqb name "app.a"
  then Some {| DEPENDS := ["app.a"; "app.zzz"]; ENABLED := true;
               COMPONENT_NAME := None |}
  else None.

Lemma self_dependency_fails_witness :
  "app.a" ∉ _loaded_packages
     (fst (_load_components (plain_config self_classes) 4
             [("app", []); ("app.a", ["app.a.models"])]
             (discovered ["app"; "app.a"] []))).
Proof.
  apply (self_dependency_fails (plain_config self_classes)
           (discovered ["app"; "app.a"] []) "app.a" []).
  - apply mem_true. reflexivity.
  - apply mem_false. reflexivity.
Defined.

(** The error is not the self-dependency one when another declared
    dependency is absent: the existence check comes first. *)
Lemma self_dependency_error_not_always :
  ~ (forall cfg s package modules,
        package ∈ _all_packages s ->
        package ∈ declared_dependencies cfg package ->
        snd (load_or_defer cfg package modules s)
        = Raise (SelfDependencyDetectedError package)).
Proof.
  intros H.
  specialize (H (plain_config self_classes) (discovered ["app"; "app.a"] [])
                "app.a" ["app.a.models"]).
  assert (H1 : "app.a" ∈ _all_packages (discovered ["app"; "app.a"] []))
    by (apply mem_true; reflexivity).
  assert (H2 : "app.a" ∈ declared_dependencies (plain_config self_classes) "app.a")
    by (apply mem_true; reflexivity).
  specialize (H H1 H2). vm_compute in H. discriminate H.
Qed.

(** ** The dependency map during a pass *)

(** Every entry of the dependency map is the declared [DEPENDS] of its key:
    what [_load_components] writes, and so what holds from [_initialize]
    on. *)
Definition map_consistent (cfg : Config) (s : State) : Prop :=
  forall k v, _dependency_map s !! k = Some v -> v = declared_dependencies cfg k.

Section Discovery.
Variable cfg : Config.

Lemma visit_package_frame root name files s :
  _loaded_packages (fst (visit_package cfg root name files s)) = _loaded_packages s
  /\ _dependency_map (fst (visit_package cfg root name files s)) = _dependency_map s
  /\ snd (visit_package cfg root name files s) = Return tt.
Proof.
  unfold visit_package.
  destruct (_is_ignored_package cfg name); [done|].
  erewrite bind_return by reflexivity.
  destruct (match package_class_of cfg name with
            | Some c => negb (ENABLED c)
            | None => false
            end); [done|].
  erewrite bind_return by reflexivity.
  destruct (_is_disabled_package _ name); done.
Qed.

Lemma find_loadable_components_frame root packages s :
  _loaded_packages (fst (_find_loadable_components cfg root packages s))
  = _loaded_packages s
  /\ _dependency_map (fst (_find_loadable_components cfg root packages s))
     = _dependency_map s
  /\ snd (_find_loadable_components cfg root packages s) = Return tt.
Proof.
  revert s. induction packages as [|[name files] rest IH]; intros s; [done|].
  cbn [_find_loadable_components]. unfold bind.
  pose proof (visit_package_frame root name files s) as (Hl & Hm & Ho).
  destruct (visit_package cfg root name files s) as [s1 o]. simpl in Hl, Hm, Ho.
  subst o. cbn beta iota. destruct (IH s1) as (Hl' & Hm' & Ho').
  by rewrite Hl', Hm', Ho', Hl, Hm.
Qed.

Lemma find_in_roots_frame roots s :
  _loaded_packages (fst (find_in_roots cfg roots s)) = _loaded_packages s
  /\ _dependency_map (fst (find_in_roots cfg roots s)) = _dependency_map s
  /\ snd (find_in_roots cfg roots s) = Return tt.
Proof.
  revert s. induction roots as [|[root packages] rest IH]; intros s; [done|].
  cbn [find_in_roots]. unfold bind.
  pose proof (find_loadable_components_frame root packages s) as (Hl & Hm & Ho).
  destruct (_find_loadable_components cfg root packages s) as [s1 o].
  simpl in Hl, Hm, Ho. subst o. cbn beta iota.
  destruct (IH s1) as (Hl' & Hm' & Ho').
  by rewrite Hl', Hm', Ho', Hl, Hm.
Qed.

(** A property of the loaded list and the dependency map that holds when
    both are empty and that every step of the loading loop keeps holds at
    the end of [load_components], however it ends. *)
Lemma load_components_establishes (Inv : State -> Prop) depth roots s0 :
  (forall s, _loaded_packages s = [] -> _dependency_map s = ∅ -> Inv s) ->
  (forall s s', _loaded_packages s' = _loaded_packages s ->
                _dependency_map s' = _dependency_map s -> Inv s -> Inv s') ->
  (forall package modules s, Inv s -> Inv (fst (load_or_defer cfg package modules s))) ->
  _is_loaded s0 = false ->
  Inv (fst (load_components cfg depth roots s0)).
Proof.
  intros Hinit Hframe Hstep Hflag. unfold load_components.
  erewrite bind_return by reflexivity. rewrite Hflag.
  erewrite bind_return by reflexivity.
  pose proof (find_in_roots_frame roots (cleared s0)) as (Hl & Hm & Ho).
  destruct (find_in_roots cfg roots (cleared s0)) as [s1 o] eqn:Hfind.
  simpl in Hl, Hm, Ho. subst o.
  erewrite bind_return by exact Hfind.
  erewrite bind_return by reflexivity.
  assert (H1 : Inv s1) by (by apply Hinit).
  pose proof (load_tables_keeps cfg Inv Hstep depth (_components s1) s1 H1) as H2.
  unfold bind at 1.
  destruct (load_tables cfg depth (_components s1) s1) as [s2 [[]|e|]];
    simpl in H2; [|done|done].
  unfold _after_packages_loaded, set_is_loaded, emit, modify, bind. simpl.
  by apply (Hframe s2).
Qed.

End Discovery.

Lemma entry_kept_step cfg k v package modules s :
  map_consistent cfg s ->
  _dependency_map s !! k = Some v ->
  map_consistent cfg (fst (load_or_defer cfg package modules s))
  /\ _dependency_map (fst (load_or_defer cfg package modules s)) !! k = Some v.
Proof.
  intros Hcons Hk.
  assert (Hins : map_consistent cfg
                   (with_dependency package (declared_dependencies cfg package) s)
                 /\ <[package := declared_dependencies cfg package]>
                      (_dependency_map s) !! k = Some v).
  { split.
    - intros k' v'. simpl. rewrite lookup_insert.
      case_decide; [intros [= <-]; by subst|apply Hcons].
    - rewrite lookup_insert. case_decide; [|done].
      subst k. f_equal. symmetry. by apply Hcons. }
  destruct Hins as [Hc' Hk'].
  assert (Hgen : forall s', (_dependency_map s' = _dependency_map s
                        \/ _dependency_map s'
                           = <[package := declared_dependencies cfg package]>
                               (_dependency_map s)) ->
                       map_consistent cfg s' /\ _dependency_map s' !! k = Some v).
  { intros s' [Hm|Hm]; unfold map_consistent; rewrite Hm; [done|].
    split; [apply Hc'|done]. }
  pose proof (load_or_defer_result cfg package modules s) as H.
  inversion H; simpl; apply Hgen; auto.
Qed.

(** C8. Once the dependency map of a pass holds an entry for a package,
    nothing the pass does afterwards changes it: not the validation of any
    package (that very package again, in a later sweep, included), not a
    step of the loading loop, a sweep, a run of [_load_components] or the
    loading of all tables.  The map of a pass is the one [_initialize]
    emptied and [_load_components] then filled, whose entries are the
    declared dependencies of their keys. *)
Theorem dependency_entry_is_stable cfg s k v :
  map_consistent cfg s ->
  _dependency_map s !! k = Some v ->
  (forall package,
      _dependency_map
        (fst (_validate_dependencies cfg package
                (declared_dependencies cfg package) s)) !! k = Some v)
  /\ (forall package modules,
         _dependency_map (fst (load_or_defer cfg package modules s)) !! k = Some v)
  /\ (forall components waiting,
         _dependency_map (fst (sweep cfg components waiting s)) !! k = Some v)
  /\ (forall depth components,
         _dependency_map (fst (_load_components cfg depth components s)) !! k = Some v)
  /\ (forall depth tables,
         _dependency_map (fst (load_tables cfg depth tables s)) !! k = Some v).
Proof.
  intros Hcons Hk.
  set (Inv := fun st => map_consistent cfg st /\ _dependency_map st !! k = Some v).
  assert (Hstep : forall package modules st,
             Inv st -> Inv (fst (load_or_defer cfg package modules st))).
  { intros p m st [Hc Hl]. by apply entry_kept_step. }
  assert (HI : Inv s) by done.
  split; [|split; [|split; [|split]]].
  - intros package.
    destruct (validate_cases cfg package (declared_dependencies cfg package) s)
      as [[e ->]|(o & -> & _)]; [done|].
    simpl. rewrite lookup_insert. case_decide; [|done].
    subst k. f_equal. symmetry. by apply Hcons.
  - intros p m. apply (Hstep p m s HI).
  - intros c w. apply (sweep_keeps cfg Inv Hstep c w s HI).
  - intros d c. apply (load_components_keeps cfg Inv Hstep d c s HI).
  - intros d t. apply (load_tables_keeps cfg Inv Hstep d t s HI).
Qed.

(** The map of a whole pass is consistent, however the pass ends. *)
Lemma pass_map_consistent cfg depth roots s0 :
  _is_loaded s0 = false ->
  map_consistent cfg (fst (load_components cfg depth roots s0)).
Proof.
  apply (load_components_establishes cfg (map_consistent cfg)).
  - intros s _ Hm k v. by rewrite Hm, lookup_empty.
  - intros s s' _ Hm Hc. unfold map_consistent. by rewrite Hm.
  - intros p m s Hc.
    assert (Hgen : forall s', (_dependency_map s' = _dependency_map s
                          \/ _dependency_map s'
                             = <[p := declared_dependencies cfg p]>
                                 (_dependency_map s)) ->
                         map_consistent cfg s').
    { intros s' [Hm|Hm]; unfold map_consistent; rewrite Hm; [done|].
      intros k v. rewrite lookup_insert.
      case_decide; [intros [= <-]; by subst|apply Hc]. }
    pose proof (load_or_defer_result cfg p m s) as H.
    inversion H; simpl; apply Hgen; auto.
Qed.

(** [app.api] depends on [app.db]; both live under [app]. *)
Definition api_classes (name : string) : option PackageClass :=
  if String.eqb name "app.api"
  then Some {| DEPENDS := ["app.db"]; ENABLED := true; COMPONENT_NAME := None |}
  else None.

Definition api_roots : list (string * list (string * list string)) :=
  [("/srv/app",
    [("app", ["__init__.py"]);
     ("app.api", ["__init__.py"; "views.py"]);
     ("app.db", ["__init__.py"; "models.py"])])].

Lemma dependency_entry_is_stable_witness :
  _dependency_map
    (fst (_load_components (plain_config api_classes) 3
            [("app.api", ["app.api.views"])]
            (with_dependency "app.api" ["app.db"]
               (discovered ["app"; "app.api"; "app.db"] []))))
    !! "app.api" = Some ["app.db"].
Proof.
  apply (dependency_entry_is_stable (plain_config api_classes)
           (with_dependency "app.api" ["app.db"]
              (discovered ["app"; "app.api"; "app.db"] []))
           "app.api" ["app.db"]).
  - intros k v. simpl. rewrite lookup_insert.
    case_decide; [intros [= <-]; by subst|by rewrite lookup_empty].
  - reflexivity.
Defined.

(** ** Load order *)

(** Every loaded package has each of its declared dependencies at an
    earlier position of [_loaded_packages]. *)
Definition dependencies_first (cfg : Config) (s : State) : Prop :=
  forall i U V,
    _loaded_packages s !! i = Some U ->
    V ∈ declared_dependencies cfg U ->
    exists j, j < i /\ _loaded_packages s !! j = Some V.

Lemma dependencies_first_step cfg package modules s :
  dependencies_first cfg s ->
  dependencies_first cfg (fst (load_or_defer cfg package modules s)).
Proof.
  intros Hord.
  pose proof (load_or_defer_result cfg package modules s) as H.
  inversion H as [s' e _ _ Hl _ Heq|s' _ _ Hl _ Heq|s' _ _ Hl _ Hdeps _ Heq];
    simpl; unfold dependencies_first; rewrite Hl; [done|done|].
  intros i U V Hi HV.
  destruct (decide (i < length (_loaded_packages s))) as [Hlt|Hge].
  - rewrite lookup_app_l in Hi by done.
    destruct (Hord i U V Hi HV) as (j & Hj & Hjl).
    exists j. split; [done|]. rewrite lookup_app_l; [done|lia].
  - rewrite lookup_app_r in Hi by lia.
    apply list_lookup_singleton_Some in Hi as [Hi0 <-].
    apply Hdeps, list_elem_of_lookup in HV as [j Hj].
    exists j. pose proof (lookup_lt_Some _ _ _ Hj).
    split; [lia|]. by rewrite lookup_app_l.
Qed.

(** C1. In the state a load pass ends in (whether it returns, raises or
    runs out of recursion), every package of [_loaded_packages] has each
    name of its entry in the dependency map at a strictly earlier position;
    and a step of the loading loop appends a package only when every name of
    its just-written entry is already in [_loaded_packages]. *)
Theorem dependencies_loaded_before cfg depth roots s0 :
  _is_loaded s0 = false ->
  (forall i U deps V,
      _loaded_packages (fst (load_components cfg depth roots s0)) !! i = Some U ->
      _dependency_map (fst (load_components cfg depth roots s0)) !! U = Some deps ->
      V ∈ deps ->
      exists j,
        j < i
        /\ _loaded_packages (fst (load_components cfg depth roots s0)) !! j = Some V)
  /\ (forall s package modules,
         _loaded_packages (fst (load_or_defer cfg package modules s))
         = _loaded_packages s
         \/ (_loaded_packages (fst (load_or_defer cfg package modules s))
             = _loaded_packages s ++ [package]
             /\ forall deps V,
                 _dependency_map (fst (load_or_defer cfg package modules s))
                   !! package = Some deps ->
                 V ∈ deps -> V ∈ _loaded_packages s)).
Proof.
  intros Hflag. split.
  - intros i U deps V Hi Hm HV.
    pose proof (pass_map_consistent cfg depth roots s0 Hflag _ _ Hm) as ->.
    clear Hm. revert i U V Hi HV.
    apply (load_components_establishes cfg (dependencies_first cfg));
      [| |apply dependencies_first_step|done].
    + intros s Hl _ i U V. by rewrite Hl, lookup_nil.
    + intros s s' Hl _ Hord. unfold dependencies_first. by rewrite Hl.
  - intros s package modules.
    pose proof (load_or_defer_result cfg package modules s) as H.
    inversion H as [s' e _ _ Hl _ Heq|s' _ _ Hl _ Heq|s' _ _ Hl Hm Hdeps _ Heq];
      simpl; [by left|by left|].
    right. split; [done|]. intros deps V. rewrite Hm, lookup_insert_eq.
    intros [= <-]. apply Hdeps.
Qed.

Lemma dependencies_loaded_before_witness :
  _loaded_packages
    (fst (load_components (plain_config api_classes) 4 api_roots new_manager))
  = ["app"; "app.db"; "app.api"]
  /\ exists j,
      j < 2
      /\ _loaded_packages
           (fst (load_components (plain_config api_classes) 4 api_roots new_manager))
           !! j = Some "app.db".
Proof.
  split; [reflexivity|].
  apply (proj1 (dependencies_loaded_before (plain_config api_classes) 4 api_roots
                  new_manager eq_refl) 2 "app.api" ["app.db"] "app.db").
  - reflexivity.
  - reflexivity.
  - apply mem_true. reflexivity.
Defined.

(** ** Mutual dependencies *)

Section Mutual.
Variable cfg : Config.

(** When some declared dependency already has an entry that lists the
    package, the loop over the dependencies raises. *)
Lemma check_items_raises package dependencies X dX s :
  X ∈ dependencies ->
  _dependency_map s !! X = Some dX ->
  package ∈ dX ->
  exists e, check_items package dependencies s = (s, Raise e).
Proof.
  intros HX Hm Hp.
  induction dependencies as [|item rest IH]; [by apply elem_of_nil in HX|].
  cbn [check_items]. destruct (_contains package item); [by eexists|].
  erewrite bind_return by reflexivity.
  destruct (decide (item = X)) as [->|Hne].
  - rewrite Hm. apply mem_true in Hp. rewrite Hp. by eexists.
  - apply elem_of_cons in HX as [->|HX]; [done|].
    destruct (_dependency_map s !! item) as [rev|]; [|by apply IH].
    destruct (mem package rev); [by eexists|by apply IH].
Qed.

(** The same, when no dependency is a sub-package of the package: the
    error is the circular one. *)
Lemma check_items_circular package dependencies X dX s :
  (forall x, x ∈ dependencies -> _contains package x = false) ->
  X ∈ dependencies ->
  _dependency_map s !! X = Some dX ->
  package ∈ dX ->
  exists item,
    check_items package dependencies s
    = (s, Raise (CircularDependencyDetectedError package item)).
Proof.
  intros Hsub HX Hm Hp.
  induction dependencies as [|item rest IH]; [by apply elem_of_nil in HX|].
  cbn [check_items]. rewrite (Hsub item) by left.
  erewrite bind_return by reflexivity.
  assert (Hrest : forall x, x ∈ rest -> _contains package x = false)
    by (intros x Hx; apply Hsub; by right).
  destruct (decide (item = X)) as [->|Hne].
  - rewrite Hm. apply mem_true in Hp. rewrite Hp. by eexists.
  - apply elem_of_cons in HX as [->|HX]; [done|].
    destruct (_dependency_map s !! item) as [rev|]; [|by apply IH].
    destruct (mem package rev); [by eexists|by apply IH].
Qed.

Lemma validate_second_raises package dependencies X dX s :
  X ∈ dependencies ->
  _dependency_map s !! X = Some dX ->
  package ∈ dX ->
  exists s' e, _validate_dependencies cfg package dependencies s = (s', Raise e).
Proof.
  intros HX Hm Hp.
  destruct (validate_cases cfg package dependencies s)
    as [[e He]|(o & Hv & Ho & Hall & Hself)]; [by eexists _, _|].
  rewrite validate_after_check in Hv |- * by done.
  destruct dependencies as [|d rest]; [by apply elem_of_nil in HX|].
  cbn [length Nat.leb] in *.
  destruct (mem package (d :: rest)) eqn:Hmem; [by eexists _, _|].
  apply mem_false in Hmem.
  assert (Hne : package <> X) by (intros ->; done).
  destruct (check_items_raises package (d :: rest) X dX
              (with_dependency package (d :: rest) s) HX) as [e He]; [|done|].
  { simpl. by rewrite lookup_insert_ne. }
  rewrite He. by eexists _, _.
Qed.

Lemma step_raises_second X Y modules s :
  Y ∈ declared_dependencies cfg X ->
  X ∈ declared_dependencies cfg Y ->
  _dependency_map s !! X = Some (declared_dependencies cfg X) ->
  exists s' e, load_or_defer cfg Y modules s = (s', Raise e).
Proof.
  intros HY HX Hm. unfold load_or_defer.
  erewrite bind_return by reflexivity.
  fold (declared_dependencies cfg Y).
  destruct (validate_second_raises Y (declared_dependencies cfg Y) X
              (declared_dependencies cfg X) (add_events [EvLoad Y] s) HX Hm HY)
    as (s' & e & Hv).
  erewrite bind_raise by exact Hv. by eexists _, _.
Qed.

Lemma step_keeps_declared_entry X package modules s :
  _dependency_map s !! X = Some (declared_dependencies cfg X) ->
  _dependency_map (fst (load_or_defer cfg package modules s)) !! X
  = Some (declared_dependencies cfg X).
Proof.
  intros Hm.
  assert (Hgen : forall s', (_dependency_map s' = _dependency_map s
                        \/ _dependency_map s'
                           = <[package := declared_dependencies cfg package]>
                               (_dependency_map s)) ->
                       _dependency_map s' !! X = Some (declared_dependencies cfg X)).
  { intros s' [->| ->]; [done|]. rewrite lookup_insert.
    case_decide; [by subst|done]. }
  pose proof (load_or_defer_result cfg package modules s) as H.
  inversion H; simpl; apply Hgen; auto.
Qed.

Lemma step_writes_entry package modules s s' b :
  load_or_defer cfg package modules s = (s', Return b) ->
  _dependency_map s' !! package = Some (declared_dependencies cfg package)
  /\ package ∉ declared_dependencies cfg package.
Proof.
  intros Heq. pose proof (load_or_defer_result cfg package modules s) as H.
  rewrite Heq in H. unfold load_or_defer in Heq.
  erewrite bind_return in Heq by reflexivity.
  fold (declared_dependencies cfg package) in Heq.
  assert (Hnot : package ∉ declared_dependencies cfg package).
  { destruct (validate_cases cfg package (declared_dependencies cfg package)
                (add_events [EvLoad package] s))
      as [[e He]|(o & Hv & Ho & Hall & Hself)].
    - erewrite bind_raise in Heq by exact He. done.
    - destruct o as [[]|e|]; [by apply Hself| |done].
      erewrite bind_raise in Heq by exact Hv. done. }
  split; [|done].
  inversion H as [| ? _ _ _ Hm|? _ _ _ Hm]; subst; rewrite Hm;
    apply lookup_insert_eq.
Qed.

(** Once one of two mutually dependent packages has its entry, a sweep
    that still has the other one to go through raises. *)
Lemma sweep_raises_at_second X Y components waiting s :
  Y ∈ declared_dependencies cfg X ->
  X ∈ declared_dependencies cfg Y ->
  _dependency_map s !! X = Some (declared_dependencies cfg X) ->
  Y ∈ keys components ->
  exists s' e, sweep cfg components waiting s = (s', Raise e).
Proof.
  intros HY HX. revert waiting s.
  induction components as [|[package modules] rest IH]; intros waiting s Hm Hin;
    [by apply elem_of_nil in Hin|].
  cbn [sweep].
  destruct (decide (package = Y)) as [->|Hne].
  - destruct (step_raises_second X Y modules s HY HX Hm) as (s' & e & He).
    erewrite bind_raise by exact He. by eexists _, _.
  - apply elem_of_cons in Hin as [Hin|Hin]; [done|].
    pose proof (step_keeps_declared_entry X package modules s Hm) as Hm'.
    pose proof (load_or_defer_result cfg package modules s) as Hres.
    destruct (load_or_defer cfg package modules s) as [s1 [b|e|]] eqn:Hstep;
      [|erewrite bind_raise by done; by eexists _, _|inversion Hres].
    erewrite bind_return by done. by apply IH.
Qed.

Lemma sweep_raises_on_mutual A B components waiting s :
  B ∈ declared_dependencies cfg A ->
  A ∈ declared_dependencies cfg B ->
  A ∈ keys components ->
  B ∈ keys components ->
  exists s' e, sweep cfg components waiting s = (s', Raise e).
Proof.
  intros HB HA. revert waiting s.
  induction components as [|[package modules] rest IH]; intros waiting s HinA HinB;
    [by apply elem_of_nil in HinA|].
  cbn [sweep].
  pose proof (load_or_defer_result cfg package modules s) as Hres.
  destruct (load_or_defer cfg package modules s) as [s1 [b|e|]] eqn:Hstep;
    [|erewrite bind_raise by done; by eexists _, _|inversion Hres].
  erewrite bind_return by done.
  destruct (step_writes_entry package modules s s1 b Hstep) as [Hm Hnot].
  simpl in HinA, HinB.
  apply elem_of_cons in HinA as [->|HinA]; apply elem_of_cons in HinB as [->|HinB].
  - done.
  - by apply (sweep_raises_at_second package B).
  - by apply (sweep_raises_at_second package A).
  - by apply IH.
Qed.

Lemma mutual_never_loaded_step A B package modules s :
  B ∈ declared_dependencies cfg A ->
  A ∈ declared_dependencies cfg B ->
  (A ∉ _loaded_packages s) /\ (B ∉ _loaded_packages s) ->
  (A ∉ _loaded_packages (fst (load_or_defer cfg package modules s)))
  /\ (B ∉ _loaded_packages (fst (load_or_defer cfg package modules s))).
Proof.
  intros HB HA [HnA HnB].
  pose proof (load_or_defer_result cfg package modules s) as H.
  inversion H as [s' e _ _ Hl _ Heq|s' _ _ Hl _ Heq|s' _ _ Hl _ Hdeps _ Heq];
    simpl; rewrite Hl; [done|done|].
  split; intros [Hin|Hin%list_elem_of_singleton]%elem_of_app; try done; subst.
  - by apply HnB, Hdeps.
  - by apply HnA, Hdeps.
Qed.

End Mutual.

(** C3 (as the code has it). For two packages of one component table that
    list each other in their [DEPENDS], [_load_components] raises during its
    first sweep, whatever the state it starts from; neither of the two is
    ever added to [_loaded_packages] by a pass; and the validation of one of
    them, run when the other already has its entry, raises
    [CircularDependencyDetectedError] provided the checks that come first
    pass: every declared dependency is in [_all_packages], the package does
    not list itself, and none of its dependencies is one of its own
    sub-packages. *)
Theorem mutual_dependency_fails cfg A B :
  B ∈ declared_dependencies cfg A ->
  A ∈ declared_dependencies cfg B ->
  (forall s components depth,
      A ∈ keys components -> B ∈ keys components ->
      exists s' e, _load_components cfg (S depth) components s = (s', Raise e))
  /\ (forall s depth tables,
         A ∉ _loaded_packages s -> B ∉ _loaded_packages s ->
         (A ∉ _loaded_packages (fst (load_tables cfg depth tables s)))
         /\ (B ∉ _loaded_packages (fst (load_tables cfg depth tables s))))
  /\ (forall s,
         _dependency_map s !! B = Some (declared_dependencies cfg B) ->
         (forall x, x ∈ declared_dependencies cfg A -> x ∈ _all_packages s) ->
         A ∉ declared_dependencies cfg A ->
         (forall x, x ∈ declared_dependencies cfg A -> _contains A x = false) ->
         exists item,
           _validate_dependencies cfg A (declared_dependencies cfg A) s
           = (with_dependency A (declared_dependencies cfg A) s,
              Raise (CircularDependencyDetectedError A item))).
Proof.
  intros HB HA. split; [|split].
  - intros s components depth HinA HinB. cbn [_load_components].
    destruct (sweep_raises_on_mutual cfg A B components [] s HB HA HinA HinB)
      as (s' & e & He).
    erewrite bind_raise by exact He. by eexists _, _.
  - intros s depth tables HnA HnB.
    apply (load_tables_keeps cfg
             (fun st => (A ∉ _loaded_packages st) /\ (B ∉ _loaded_packages st)));
      [|done].
    intros p m st. by apply mutual_never_loaded_step.
  - intros s Hm Hall Hself Hsub.
    rewrite validate_after_check by done.
    destruct (declared_dependencies cfg A) as [|d rest] eqn:Hdeps;
      [by apply elem_of_nil in HB|].
    cbn [length Nat.leb]. apply mem_false in Hself. rewrite Hself.
    apply (check_items_circular A (d :: rest) B (declared_dependencies cfg B));
      [done|done| |done].
    simpl. rewrite lookup_insert_ne; [done|].
    intros <-. apply mem_false in Hself. by apply Hself.
Qed.

(** [app.a] and [app.b] depend on each other. *)
Definition mutual_classes (name : string) : option PackageClass :=
  if String.eqb name "app.a"
  then Some {| DEPENDS := ["app.b"]; ENABLED := true; COMPONENT_NAME := None |}
  else if String.eqb name "app.b"
  then Some {| DEPENDS := ["app.a"]; ENABLED := true; COMPONENT_NAME := None |}
  else None.

Lemma mutual_dependency_fails_witness :
  (exists s' e,
      _load_components (plain_config mutual_classes) 2
        [("app", []); ("app.a", []); ("app.b", [])]
        (discovered ["app"; "app.a"; "app.b"] []) = (s', Raise e))
  /\ snd (_load_components (plain_config mutual_classes) 2
            [("app", []); ("app.a", []); ("app.b", [])]
            (discovered ["app"; "app.a"; "app.b"] []))
     = Raise (CircularDependencyDetectedError "app.b" "app.a").
Proof.
  split; [|reflexivity].
  apply (proj1 (mutual_dependency_fails (plain_config mutual_classes) "app.a" "app.b"
                  ltac:(apply mem_true; reflexivity)
                  ltac:(apply mem_true; reflexivity))).
  - apply mem_true. reflexivity.
  - apply mem_true. reflexivity.
Defined.

(** [app] depends on its sub-package [app.db], which depends on [app]. *)
Definition nested_classes (name : string) : option PackageClass :=
  if String.eqb name "app"
  then Some {| DEPENDS := ["app.db"]; ENABLED := true; COMPONENT_NAME := None |}
  else if String.eqb name "app.db"
  then Some {| DEPENDS := ["app"]; ENABLED := true; COMPONENT_NAME := None |}
  else None.

(** Two packages that list each other need not meet the circular error:
    the sub-package check comes before it. *)
Lemma mutual_dependency_error_not_always_circular :
  ~ (forall cfg A B components depth s,
        B ∈ declared_dependencies cfg A ->
        A ∈ declared_dependencies cfg B ->
        A ∈ keys components -> B ∈ keys components ->
        A ∈ _all_packages s -> B ∈ _all_packages s ->
        exists x y,
          snd (_load_components cfg (S depth) components s)
          = Raise (CircularDependencyDetectedError x y)).
Proof.
  intros H.
  destruct (H (plain_config nested_classes) "app" "app.db"
              [("app", []); ("app.db", [])] 1 (discovered ["app"; "app.db"] []))
    as (x & y & Hxy); try (apply mem_true; reflexivity).
  vm_compute in Hxy. discriminate Hxy.
Qed.

(** ** Termination of the loading pass *)

(** A run of sweeps in which every sweep that returns with packages still
    waiting has loaded at least one package. *)
Inductive Progresses (cfg : Config) : State -> Components -> Prop :=
| progress_raise s components s' e :
    sweep cfg components [] s = (s', Raise e) ->
    Progresses cfg s components
| progress_done s components s' :
    sweep cfg components [] s = (s', Return []) ->
    Progresses cfg s components
| progress_more s components s' waiting :
    sweep cfg components [] s = (s', Return waiting) ->
    length waiting < length components ->
    Progresses cfg s' waiting ->
    Progresses cfg s components.

(** C2 (as the code has it). [_load_components] has no guard against a
    sweep that loads nothing.  What holds is this: when every sweep that
    leaves packages waiting has loaded at least one, the pass ends, by
    returning or by raising, within as many levels of recursion as the table
    has packages, plus one. *)
Theorem load_components_terminates_on_progress cfg s components depth :
  Progresses cfg s components ->
  length components < depth ->
  snd (_load_components cfg depth components s) = Return tt
  \/ exists e, snd (_load_components cfg depth components s) = Raise e.
Proof.
  intros Hprog. revert depth.
  induction Hprog as [s components s' e Hs|s components s' Hs
                      |s components s' waiting Hs Hlen _ IH];
    intros depth Hdepth; (destruct depth as [|depth]; [lia|]);
    cbn [_load_components].
  - erewrite bind_raise by exact Hs. right. by eexists.
  - erewrite bind_return by exact Hs. by left.
  - erewrite bind_return by exact Hs.
    destruct waiting as [|w waiting]; [by left|].
    cbn [length Nat.ltb Nat.leb]. apply IH. simpl in *. lia.
Qed.

Lemma load_components_terminates_on_progress_witness :
  snd (_load_components (plain_config api_classes) 4
         [("app", []); ("app.api", ["app.api.views"]); ("app.db", ["app.db.models"])]
         (discovered ["app"; "app.api"; "app.db"] []))
  = Return tt
  \/ exists e,
      snd (_load_components (plain_config api_classes) 4
             [("app", []); ("app.api", ["app.api.views"]);
              ("app.db", ["app.db.models"])]
             (discovered ["app"; "app.api"; "app.db"] []))
      = Raise e.
Proof.
  apply load_components_terminates_on_progress.
  - apply (progress_more _ _ _
             (fst (sweep (plain_config api_classes)
                     [("app", []); ("app.api", ["app.api.views"]);
                      ("app.db", ["app.db.models"])] []
                     (discovered ["app"; "app.api"; "app.db"] [])))
             [("app.api", ["app.api.views"])]);
      [vm_compute; reflexivity|simpl; lia|].
    apply (progress_done _ _ _
             (fst (sweep (plain_config api_classes)
                     [("app.api", ["app.api.views"])] []
                     (fst (sweep (plain_config api_classes)
                             [("app", []); ("app.api", ["app.api.views"]);
                              ("app.db", ["app.db.models"])] []
                             (discovered ["app"; "app.api"; "app.db"] [])))))).
    vm_compute. reflexivity.
  - simpl. lia.
Defined.

(** [app.a] waits for [app.b], [app.b] for [app.c] and [app.c] for
    [app.a]: no two of them list each other. *)
Definition cycle_classes (name : string) : option PackageClass :=
  if String.eqb name "app.a"
  then Some {| DEPENDS := ["app.b"]; ENABLED := true; COMPONENT_NAME := None |}
  else if String.eqb name "app.b"
  then Some {| DEPENDS := ["app.c"]; ENABLED := true; COMPONENT_NAME := None |}
  else if String.eqb name "app.c"
  then Some {| DEPENDS := ["app.a"]; ENABLED := true; COMPONENT_NAME := None |}
  else None.

Definition cycle_components : Components :=
  [("app.a", ["app.a.models"]); ("app.b", []); ("app.c", [])].

(** The states the cycle is stuck in: only [app] is loaded and the three
    entries are written. *)
Definition cycle_stuck (s : State) : Prop :=
  _all_packages s = ["app"; "app.a"; "app.b"; "app.c"]
  /\ _loaded_packages s = ["app"]
  /\ _dependency_map s
     = <["app.a" := ["app.b"]]>
         (<["app.b" := ["app.c"]]> (<["app.c" := ["app.a"]]> (<["app" := []]> ∅))).

Lemma cycle_sweep_stuck s :
  cycle_stuck s ->
  sweep (plain_config cycle_classes) cycle_components [] s
  = (fst (sweep (plain_config cycle_classes) cycle_components [] s),
     Return cycle_components)
  /\ cycle_stuck (fst (sweep (plain_config cycle_classes) cycle_components [] s)).
Proof.
  destruct s as [all loaded disabled map comps flag evs].
  intros (Hall & Hloaded & Hmap). simpl in Hall, Hloaded, Hmap. subst.
  split; [vm_compute; reflexivity|].
  repeat split; vm_compute; reflexivity.
Qed.

Lemma cycle_overflows depth s :
  cycle_stuck s ->
  snd (_load_components (plain_config cycle_classes) depth cycle_components s)
  = Overflow.
Proof.
  revert s. induction depth as [|depth IH]; intros s Hs; [done|].
  cbn [_load_components].
  destruct (cycle_sweep_stuck s Hs) as (Hsweep & Hs').
  erewrite bind_return by exact Hsweep. by apply IH.
Qed.

(** The pass does not end for every table: on the three-package cycle the
    first sweep loads [app] only, every later sweep loads nothing and raises
    nothing, and the function calls itself again on the same three packages,
    whatever depth of recursion it is given. *)
Lemma load_components_may_not_terminate :
  ~ (forall cfg components s,
        exists depth, snd (_load_components cfg depth components s) <> Overflow).
Proof.
  intros H.
  destruct (H (plain_config cycle_classes)
              (("app", []) :: cycle_components)
              (discovered ["app"; "app.a"; "app.b"; "app.c"] []))
    as [depth Hdepth].
  apply Hdepth. destruct depth as [|depth]; [done|].
  cbn [_load_components].
  assert (Hfirst :
            sweep (plain_config cycle_classes) (("app", []) :: cycle_components) []
              (discovered ["app"; "app.a"; "app.b"; "app.c"] [])
            = (fst (sweep (plain_config cycle_classes)
                      (("app", []) :: cycle_components) []
                      (discovered ["app"; "app.a"; "app.b"; "app.c"] [])),
               Return cycle_components))
    by (vm_compute; reflexivity).
  erewrite bind_return by exact Hfirst.
  apply cycle_overflows. repeat split; vm_compute; reflexivity.
Qed.

(** * Further properties of the manager *)

(** ** Dotted names: splitting and joining *)

Module StrFacts.

Lemma append_nil_l (s : string) : String.append "" s = s.
Proof. reflexivity. Qed.

Lemma append_cons (c : ascii) (a b : string) :
  String.append (String c a) b = String c (String.append a b).
Proof. reflexivity. Qed.

Lemma append_nil_r (s : string) : String.append s "" = s.
Proof. induction s as [|c s IH]; [done|]. by rewrite append_cons, IH. Qed.

Lemma append_assoc (a b c : string) :
  String.append (String.append a b) c = String.append a (String.append b c).
Proof. induction a as [|x a IH]; [done|]. by rewrite !append_cons, IH. Qed.

Lemma length_append (a b : string) :
  String.length (String.append a b) = String.length a + String.length b.
Proof. induction a as [|x a IH]; [done|]. rewrite append_cons. simpl. by rewrite IH. Qed.

Lemma split_nonempty sep s : Str.split sep s <> [].
Proof.
  destruct s as [|c s]; [done|]. simpl.
  destruct (Ascii.eqb c sep); [done|]. by destruct (Str.split sep s).
Qed.

Lemma split_dots_length s : 1 <= length (Str.split_dots s).
Proof.
  pose proof (split_nonempty "."%char s) as H. unfold Str.split_dots.
  destruct (Str.split "."%char s); [done|simpl; lia].
Qed.

Lemma concat_cons_char sep c h t :
  String.concat sep (String c h :: t) = String c (String.concat sep (h :: t)).
Proof. destruct t; reflexivity. Qed.

(** Joining what was split gives the name back. *)
Lemma join_split s : Str.join_dots (Str.split_dots s) = s.
Proof.
  unfold Str.join_dots, Str.split_dots.
  induction s as [|c s IH]; [done|]. simpl.
  pose proof (split_nonempty "."%char s) as Hne.
  destruct (Ascii.eqb_spec c "."%char) as [->|Hc].
  - destruct (Str.split "."%char s) as [|h t]; [done|].
    change (String.concat "." ("" :: h :: t))
      with (String.append "" (String.append "." (String.concat "." (h :: t)))).
    by rewrite IH.
  - destruct (Str.split "."%char s) as [|h t]; [done|].
    by rewrite concat_cons_char, IH.
Qed.

(** A name without a dot. *)
Fixpoint dotless (s : string) : bool :=
  match s with
  | EmptyString => true
  | String c s' => negb (Ascii.eqb c "."%char) && dotless s'
  end.

Lemma split_dotless s : dotless s = true -> Str.split_dots s = [s].
Proof.
  unfold Str.split_dots. induction s as [|c s IH]; [done|]. simpl.
  intros [Hc Hs]%andb_true_iff. apply negb_true_iff in Hc. rewrite Hc.
  by rewrite IH.
Qed.

Lemma split_app a b :
  Str.split_dots (String.append a (String.append "." b))
  = Str.split_dots a ++ Str.split_dots b.
Proof.
  unfold Str.split_dots. induction a as [|c a IH]; [done|].
  rewrite append_cons. simpl. rewrite IH.
  destruct (Ascii.eqb c "."%char); [done|].
  pose proof (split_nonempty "."%char a) as Hne.
  by destruct (Str.split "."%char a).
Qed.

Lemma join_app l1 l2 :
  l1 <> [] -> l2 <> [] ->
  Str.join_dots (l1 ++ l2)
  = String.append (Str.join_dots l1) (String.append "." (Str.join_dots l2)).
Proof.
  unfold Str.join_dots. intros H1 H2.
  induction l1 as [|x l1 IH]; [done|].
  destruct l1 as [|y l1].
  - destruct l2 as [|z l2]; [done|]. reflexivity.
  - change (String.concat "." ((x :: y :: l1) ++ l2))
      with (String.append x (String.append "." (String.concat "." ((y :: l1) ++ l2)))).
    rewrite IH by done.
    change (String.concat "." (x :: y :: l1))
      with (String.append x (String.append "." (String.concat "." (y :: l1)))).
    by rewrite !append_assoc.
Qed.

Lemma prefix_append a b : String.prefix a (String.append a b) = true.
Proof.
  induction a as [|c a IH]; [by destruct b|].
  rewrite append_cons. simpl. destruct (ascii_dec c c); [done|done].
Qed.

Lemma prefix_correct_iff a s :
  String.prefix a s = true <-> exists rest, s = String.append a rest.
Proof.
  split.
  - revert s. induction a as [|c a IH]; intros s H; [by exists s|].
    destruct s as [|d s]; [done|]. simpl in H.
    destruct (ascii_dec c d) as [->|]; [|done].
    destruct (IH s H) as [rest ->]. by exists rest.
  - intros [rest ->]. apply prefix_append.
Qed.

Lemma prefix_trans a b s :
  String.prefix a b = true -> String.prefix b s = true -> String.prefix a s = true.
Proof.
  rewrite !prefix_correct_iff. intros [r1 ->] [r2 ->].
  exists (String.append r1 r2). by rewrite append_assoc.
Qed.

End StrFacts.

(** ** Containment of names *)

Import StrFacts.

Lemma take_split_app root rest :
  take (length (Str.split_dots root))
       (Str.split_dots (String.append root (String.append "." rest)))
  = Str.split_dots root.
Proof. rewrite split_app. by rewrite take_app_length. Qed.

Lemma contains_iff root name :
  _contains root name = true
  <-> name = root \/ exists rest, name = String.append root (String.append "." rest).
Proof.
  unfold _contains. split.
  - destruct (Nat.ltb_spec (length (Str.split_dots name))
                (length (Str.split_dots root))) as [Hlt|Hge]; [done|].
    intros Heq%String.eqb_eq.
    pose proof (split_dots_length root) as Hroot.
    rewrite <- (join_split name).
    rewrite <- (take_drop (length (Str.split_dots root)) (Str.split_dots name)).
    destruct (drop (length (Str.split_dots root)) (Str.split_dots name))
      as [|d ds] eqn:Hdrop.
    + left. by rewrite app_nil_r.
    + right. exists (Str.join_dots (d :: ds)).
      rewrite join_app, Heq; [done| |done].
      intros Hnil. apply (f_equal length) in Hnil.
      rewrite length_take in Hnil. simpl in Hnil. lia.
  - intros [->|[rest ->]].
    + rewrite Nat.ltb_irrefl, firstn_all, join_split. apply String.eqb_refl.
    + rewrite take_split_app, join_split, String.eqb_refl.
      rewrite split_app, length_app.
      destruct (Nat.ltb_spec (length (Str.split_dots root) + length (Str.split_dots rest))
                  (length (Str.split_dots root))); [lia|done].
Qed.

(** X1. [_contains root name] holds exactly for [root] itself and for the
    names that continue [root] after a dot: unlike the ignore and disabled
    lists, it respects segment boundaries. *)
Theorem contains_iff_subtree root name :
  _contains root name = true
  <-> name = root \/ exists rest, name = String.append root (String.append "." rest).
Proof. apply contains_iff. Qed.

(** ** The parent of a package *)

Lemma is_parent_loaded_cases s name :
  (exists b, _is_parent_loaded name s = (s, Return b))
  /\ (dotless name = true -> _is_parent_loaded name s = (s, Return true))
  /\ (forall parent last,
         dotless last = true ->
         name = String.append parent (String.append "." last) ->
         _is_parent_loaded name s = (s, Return (mem parent (_loaded_packages s)))).
Proof.
  split; [|split].
  - unfold _is_parent_loaded. pose proof (split_dots_length name) as Hlen.
    destruct (length (Str.split_dots name)) as [|n]; [lia|].
    match goal with |- context [String.eqb ?a ?b] => destruct (String.eqb a b) end;
      by eexists.
  - intros Hd. unfold _is_parent_loaded. rewrite split_dotless by done. simpl.
    by rewrite String.eqb_refl.
  - intros parent last Hlast ->. unfold _is_parent_loaded.
    rewrite split_app, (split_dotless last) by done.
    rewrite length_app. pose proof (split_dots_length parent) as Hlen.
    destruct (length (Str.split_dots parent)) as [|n] eqn:Hn; [lia|].
    cbn [length Nat.add]. replace (n + 1) with (S n) by lia.
    rewrite removelast_last, join_split.
    destruct (String.eqb_spec parent
                (String.append parent (String.append "." last))) as [Heq|_].
    + apply (f_equal String.length) in Heq. rewrite !length_append in Heq.
      simpl in Heq. lia.
    + unfold bind, get, ret, _is_dependencies_loaded. simpl.
      by rewrite andb_true_r.
Qed.

(** X2. [_is_parent_loaded] never raises and leaves the state alone.  A
    name without a dot has no parent and counts as having it loaded; for
    [parent.last] the answer is whether [parent] is in [_loaded_packages]. *)
Theorem parent_loaded_answer s name :
  (exists b, _is_parent_loaded name s = (s, Return b))
  /\ (dotless name = true -> _is_parent_loaded name s = (s, Return true))
  /\ (forall parent last,
         dotless last = true ->
         name = String.append parent (String.append "." last) ->
         _is_parent_loaded name s = (s, Return (mem parent (_loaded_packages s)))).
Proof. apply is_parent_loaded_cases. Qed.

(** ** A closer look at one step of the loading loop *)

(** The packages the [package_loaded] hooks were called for, in order. *)
Definition notified (evs : list Event) : list string :=
  flat_map (fun e => match e with EvPackageLoaded p => [p] | _ => [] end) evs.

Lemma notified_app a b : notified (a ++ b) = notified a ++ notified b.
Proof. unfold notified. apply flat_map_app. Qed.

Lemma notified_modules cfg modules :
  notified (flat_map (module_events cfg) modules) = [].
Proof.
  induction modules as [|m rest IH]; [done|].
  cbn [flat_map]. rewrite notified_app, IH. unfold module_events.
  by destruct (_module_loader cfg).
Qed.

Section Detail.
Variable cfg : Config.

(** [_load_component] either raises [ComponentModuleNotFoundError] right
    after importing the package, or imports the package and some of its
    modules, records the package and calls the hooks. *)
Lemma load_component_exact package modules component_name s :
  (exists c,
      _load_component cfg package modules component_name s
      = (add_events [EvLoad package] s,
         Raise (ComponentModuleNotFoundError c package)))
  \/ (exists loaded_modules,
        _load_component cfg package modules component_name s
        = (add_events [EvPackageLoaded package]
             (add_loaded package
                (add_events
                   (EvLoad package :: flat_map (module_events cfg) loaded_modules) s)),
           Return tt)).
Proof.
  unfold _load_component.
  set (cm := match match component_name with
                   | Some c => Some c | None => _base_component cfg end with
             | Some c => Some (_merge_module_name package c)
             | None => None
             end).
  assert (Hrest : forall first,
             (load_modules cfg modules cm ;;;
              append_loaded package ;;; _package_loaded package)
               (add_events (EvLoad package :: flat_map (module_events cfg) first) s)
             = (add_events [EvPackageLoaded package]
                  (add_loaded package
                     (add_events
                        (EvLoad package
                           :: flat_map (module_events cfg)
                                (first ++ List.filter (fun n => differs n cm) modules))
                        s)),
                Return tt)).
  { intros first. erewrite bind_return by apply load_modules_run.
    unfold append_loaded, _package_loaded, emit, modify, bind.
    rewrite add_events_app. cbn [app]. by rewrite flat_map_app. }
  destruct cm as [c|].
  - destruct (mem c modules).
    + right. eexists.
      erewrite bind_return by reflexivity.
      erewrite bind_return by apply load_module_run.
      rewrite add_events_app.
      replace ([EvLoad package] ++ module_events cfg c)
        with (EvLoad package :: flat_map (module_events cfg) [c])
        by (simpl; by rewrite app_nil_r).
      apply (Hrest [c]).
    + destruct component_name as [c'|].
      * left. exists c. reflexivity.
      * right. eexists. erewrite bind_return by reflexivity. apply (Hrest []).
  - right. eexists. erewrite bind_return by reflexivity. apply (Hrest []).
Qed.

Lemma is_parent_loaded_same_loaded package s1 s2 :
  _loaded_packages s1 = _loaded_packages s2 ->
  snd (_is_parent_loaded package s1) = snd (_is_parent_loaded package s2).
Proof.
  intros Hl. unfold _is_parent_loaded.
  destruct (length (Str.split_dots package)) as [|n]; [done|].
  match goal with |- context [String.eqb ?a ?b] => destruct (String.eqb a b) end;
    [done|].
  unfold bind, get, ret. simpl. by rewrite Hl.
Qed.

Lemma not_loaded_dependency (loaded dependencies : list string) :
  _is_dependencies_loaded loaded dependencies = false ->
  exists d, d ∈ dependencies /\ d ∉ loaded.
Proof.
  unfold _is_dependencies_loaded.
  induction dependencies as [|d rest IH]; [done|]. simpl.
  destruct (mem d loaded) eqn:Hd; simpl.
  - intros (x & Hx & Hout)%IH. exists x. split; [by right|done].
  - intros _. exists d. split; [left|by apply mem_false].
Qed.

(** What a step does besides what [step_result] tells. *)
Inductive step_detail (package : string) (s : State)
  : State * Outcome bool -> Prop :=
| detail_raised s' e :
    _is_loaded s' = _is_loaded s ->
    _components s' = _components s ->
    notified (events s') = notified (events s) ->
    step_detail package s (s', Raise e)
| detail_deferred s' :
    _is_loaded s' = _is_loaded s ->
    _components s' = _components s ->
    notified (events s') = notified (events s) ->
    (exists d, d ∈ declared_dependencies cfg package /\ d ∉ _loaded_packages s)
    \/ snd (_is_parent_loaded package s) = Return false ->
    step_detail package s (s', Return false)
| detail_loaded s' :
    _is_loaded s' = _is_loaded s ->
    _components s' = _components s ->
    notified (events s') = notified (events s) ++ [package] ->
    snd (_is_parent_loaded package s) = Return true ->
    step_detail package s (s', Return true).

Lemma load_or_defer_detail package modules s :
  step_detail package s (load_or_defer cfg package modules s).
Proof.
  unfold load_or_defer.
  erewrite bind_return by reflexivity.
  fold (declared_dependencies cfg package).
  set (deps := declared_dependencies cfg package).
  set (s1 := add_events [EvLoad package] s).
  assert (Hn1 : notified (events s1) = notified (events s)).
  { unfold s1. simpl. rewrite notified_app. simpl. by rewrite app_nil_r. }
  destruct (validate_cases cfg package deps s1) as [[e He]|(o & Hv & Ho & Hall & Hself)].
  { erewrite bind_raise by exact He. by constructor. }
  destruct o as [[]|e|]; [|erewrite bind_raise by exact Hv; by constructor|done].
  erewrite bind_return by exact Hv.
  set (s2 := with_dependency package deps s1).
  erewrite bind_return by reflexivity.
  destruct ((length deps <=? 0) || _is_dependencies_loaded (_loaded_packages s2) deps)
    eqn:Hready.
  2:{ constructor; try done. left.
      apply orb_false_iff in Hready as [_ Hl].
      by apply not_loaded_dependency in Hl. }
  destruct (is_parent_loaded_state package s2) as (po & Hp & Hpo).
  assert (Hps : snd (_is_parent_loaded package s) = po).
  { rewrite (is_parent_loaded_same_loaded package s s2) by done. by rewrite Hp. }
  destruct po as [b|e|]; [|erewrite bind_raise by exact Hp; by constructor|done].
  erewrite bind_return by exact Hp.
  destruct b; [|constructor; try done; by right].
  assert (Hlc : forall s3 component_name,
             _is_loaded s3 = _is_loaded s ->
             _components s3 = _components s ->
             notified (events s3) = notified (events s) ->
             step_detail package s
               ((_load_component cfg package modules component_name ;;; ret true) s3)).
  { intros s3 cn H1 H2 H3.
    destruct (load_component_exact package modules cn s3) as [(c & Hl)|(ms & Hl)].
    - erewrite bind_raise by exact Hl. constructor; try done.
      simpl. rewrite notified_app. simpl. by rewrite app_nil_r.
    - erewrite bind_return by exact Hl. unfold ret.
      constructor; try done. simpl.
      rewrite !notified_app, H3.
      change (EvLoad package :: flat_map (module_events cfg) ms)
        with ([EvLoad package] ++ flat_map (module_events cfg) ms).
      rewrite notified_app, notified_modules. simpl. by rewrite app_nil_r. }
  destruct (package_class_of cfg package) as [c|] eqn:Hclass.
  - change (step_detail package s
              ((_load_component cfg package modules (COMPONENT_NAME c) ;;; ret true)
                 (add_events [EvLoadConfigs package] s2))).
    apply Hlc; try done.
    simpl. rewrite !notified_app. simpl. by rewrite !app_nil_r.
  - apply (Hlc s2); done.
Qed.

End Detail.

(** ** What a step decides *)

(** X3. A step of the loading loop puts a package off only when it is not
    ready: one of its declared dependencies is not in [_loaded_packages], or
    its parent package is not.  The package then stays out of
    [_loaded_packages]. *)
Theorem deferred_only_when_not_ready cfg package modules s :
  snd (load_or_defer cfg package modules s) = Return false ->
  ((exists d, d ∈ declared_dependencies cfg package /\ d ∉ _loaded_packages s)
   \/ snd (_is_parent_loaded package s) = Return false)
  /\ _loaded_packages (fst (load_or_defer cfg package modules s)) = _loaded_packages s.
Proof.
  intros Hret.
  pose proof (load_or_defer_detail cfg package modules s) as Hd.
  pose proof (load_or_defer_result cfg package modules s) as Hr.
  destruct (load_or_defer cfg package modules s) as [s' o]. simpl in Hret. subst o.
  inversion Hd; inversion Hr; subst. by split.
Qed.

Lemma deferred_only_when_not_ready_witness :
  (exists d, d ∈ declared_dependencies (plain_config api_classes) "app.api"
             /\ d ∉ _loaded_packages (discovered ["app"; "app.api"; "app.db"] []))
  \/ snd (_is_parent_loaded "app.api" (discovered ["app"; "app.api"; "app.db"] []))
     = Return false.
Proof.
  apply (deferred_only_when_not_ready (plain_config api_classes) "app.api"
           ["app.api.views"] (discovered ["app"; "app.api"; "app.db"] [])).
  reflexivity.
Defined.

(** ** A pass that returns has loaded everything *)

Section Complete.
Variable cfg : Config.

Lemma loaded_grows_step x package modules s :
  x ∈ _loaded_packages s ->
  x ∈ _loaded_packages (fst (load_or_defer cfg package modules s)).
Proof.
  intros Hx. pose proof (load_or_defer_result cfg package modules s) as H.
  inversion H as [s' e _ _ Hl _ Heq|s' _ _ Hl _ Heq|s' _ _ Hl _ _ _ Heq];
    simpl; rewrite Hl; [done|done|]. apply elem_of_app. by left.
Qed.

Lemma keys_dict_set {V} (d : list (string * V)) k v x :
  x ∈ keys (dict_set d k v) <-> x = k \/ x ∈ keys d.
Proof.
  unfold keys. induction d as [|[k' v'] d IH]; simpl.
  - rewrite list_elem_of_singleton. split; [by left|].
    intros [->|H]; [done|by apply elem_of_nil in H].
  - destruct (String.eqb_spec k' k) as [->|Hne]; simpl.
    + rewrite elem_of_cons. tauto.
    + rewrite !elem_of_cons, IH. tauto.
Qed.

(** After a sweep that returns, every package it went through or was
    handed as waiting is loaded or is waiting. *)
Lemma sweep_accounts components waiting s s' d :
  sweep cfg components waiting s = (s', Return d) ->
  (forall x, x ∈ _loaded_packages s -> x ∈ _loaded_packages s')
  /\ (forall k, k ∈ keys components \/ k ∈ keys waiting ->
                k ∈ _loaded_packages s' \/ k ∈ keys d).
Proof.
  revert waiting s.
  induction components as [|[package modules] rest IH]; intros waiting s.
  - cbn [sweep]. unfold ret. intros [= <- <-]. split; [done|].
    intros k [Hk|Hk]; [by apply elem_of_nil in Hk|by right].
  - cbn [sweep]. unfold bind at 1.
    pose proof (load_or_defer_result cfg package modules s) as Hr.
    pose proof (fun x => loaded_grows_step x package modules s) as Hgrow.
    destruct (load_or_defer cfg package modules s) as [s1 [b|e|]]; [|done|done].
    simpl in Hgrow. intros [Hl Hk]%IH. split; [auto|].
    intros k [[->|Hin]%elem_of_cons|Hin].
    + destruct b.
      * left. apply Hl. inversion Hr as [| |? _ _ Hl1]; subst. rewrite Hl1.
        apply elem_of_app. right. left.
      * apply Hk. right. apply keys_dict_set. by left.
    + apply Hk. by left.
    + apply Hk. right. destruct b; [done|]. apply keys_dict_set. by right.
Qed.

Lemma load_components_complete depth components s s' :
  _load_components cfg depth components s = (s', Return tt) ->
  (forall x, x ∈ _loaded_packages s -> x ∈ _loaded_packages s')
  /\ (forall k, k ∈ keys components -> k ∈ _loaded_packages s').
Proof.
  revert components s.
  induction depth as [|depth IH]; intros components s; [done|].
  cbn [_load_components]. unfold bind at 1.
  destruct (sweep cfg components [] s) as [s1 [d|e|]] eqn:Hsweep; [|done|done].
  apply sweep_accounts in Hsweep as [Hl Hk].
  destruct d as [|w d].
  - cbn [length Nat.ltb Nat.leb]. unfold ret. intros [= <-]. split; [done|].
    intros k Hin. destruct (Hk k (or_introl Hin)) as [?|Hnil]; [done|].
    by apply elem_of_nil in Hnil.
  - cbn [length Nat.ltb Nat.leb]. intros [Hl' Hk']%IH. split; [auto|].
    intros k Hin. destruct (Hk k (or_introl Hin)); auto.
Qed.

Lemma load_tables_complete depth tables s s' :
  load_tables cfg depth tables s = (s', Return tt) ->
  (forall x, x ∈ _loaded_packages s -> x ∈ _loaded_packages s')
  /\ (forall root components k,
         (root, components) ∈ tables -> k ∈ keys components ->
         k ∈ _loaded_packages s').
Proof.
  revert s. induction tables as [|[root components] rest IH]; intros s.
  - cbn [load_tables]. unfold ret. intros [= <-]. split; [done|].
    intros r c k Hin. by apply elem_of_nil in Hin.
  - cbn [load_tables]. unfold bind at 1.
    destruct (_load_components cfg depth components s) as [s1 [[]|e|]] eqn:Hlc;
      [|done|done].
    apply load_components_complete in Hlc as [Hl Hk].
    intros [Hl' Hk']%IH. split; [auto|].
    intros r c k [[= -> ->]|Hin]%elem_of_cons Hkin; [auto|]. by apply (Hk' r c).
Qed.

End Complete.

(** X4. When [_load_components] returns, every package of the table it was
    given is in [_loaded_packages], and so is every package that was loaded
    before; the same holds for a list of tables. *)
Theorem returned_pass_loaded_all cfg depth s :
  (forall components s',
      _load_components cfg depth components s = (s', Return tt) ->
      (forall x, x ∈ _loaded_packages s -> x ∈ _loaded_packages s')
      /\ (forall k, k ∈ keys components -> k ∈ _loaded_packages s'))
  /\ (forall tables s',
         load_tables cfg depth tables s = (s', Return tt) ->
         forall root components k,
           (root, components) ∈ tables -> k ∈ keys components ->
           k ∈ _loaded_packages s').
Proof.
  split.
  - intros components s'. apply load_components_complete.
  - intros tables s' H. by apply load_tables_complete in H as [_ H].
Qed.

(** ** Parents come first *)

Lemma parent_first_step cfg package modules s :
  (forall i U parent last,
      _loaded_packages s !! i = Some U ->
      dotless last = true ->
      U = String.append parent (String.append "." last) ->
      exists j, j < i /\ _loaded_packages s !! j = Some parent) ->
  forall i U parent last,
    _loaded_packages (fst (load_or_defer cfg package modules s)) !! i = Some U ->
    dotless last = true ->
    U = String.append parent (String.append "." last) ->
    exists j,
      j < i
      /\ _loaded_packages (fst (load_or_defer cfg package modules s)) !! j = Some parent.
Proof.
  intros Hinv.
  pose proof (load_or_defer_detail cfg package modules s) as Hd.
  pose proof (load_or_defer_result cfg package modules s) as Hr.
  destruct (load_or_defer cfg package modules s) as [s' o]. simpl.
  inversion Hr as [? ? _ _ Hl|? _ _ Hl|? _ _ Hl]; subst; rewrite Hl; [done|done|].
  inversion Hd as [| |? _ _ _ Hparent]; subst.
  intros i U parent last Hi Hlast HU.
  destruct (decide (i < length (_loaded_packages s))) as [Hlt|Hge].
  - rewrite lookup_app_l in Hi by done.
    destruct (Hinv i U parent last Hi Hlast HU) as (j & Hj & Hjl).
    exists j. split; [done|]. rewrite lookup_app_l; [done|lia].
  - rewrite lookup_app_r in Hi by lia.
    apply list_lookup_singleton_Some in Hi as [Hi0 <-].
    destruct (is_parent_loaded_cases s package) as (_ & _ & Hdotted).
    rewrite (Hdotted parent last Hlast HU) in Hparent. simpl in Hparent.
    injection Hparent as Hmem. apply mem_true, list_elem_of_lookup in Hmem as [j Hj].
    exists j. pose proof (lookup_lt_Some _ _ _ Hj).
    split; [lia|]. by rewrite lookup_app_l.
Qed.

(** X5. In the state a load pass ends in, however it ends, a loaded
    package named [parent.last] has [parent] at a strictly earlier position of
    [_loaded_packages]: no package is loaded before its parent package. *)
Theorem parent_loaded_before cfg depth roots s0 i U parent last :
  _is_loaded s0 = false ->
  _loaded_packages (fst (load_components cfg depth roots s0)) !! i = Some U ->
  dotless last = true ->
  U = String.append parent (String.append "." last) ->
  exists j,
    j < i
    /\ _loaded_packages (fst (load_components cfg depth roots s0)) !! j = Some parent.
Proof.
  intros Hflag. revert i U parent last.
  apply (load_components_establishes cfg
           (fun st => forall i U parent last,
                _loaded_packages st !! i = Some U ->
                dotless last = true ->
                U = String.append parent (String.append "." last) ->
                exists j, j < i /\ _loaded_packages st !! j = Some parent));
    [| | |done].
  - intros s Hl _ i U parent last. by rewrite Hl, lookup_nil.
  - intros s s' Hl _ Hinv. by rewrite Hl.
  - intros p m s. apply parent_first_step.
Qed.

Lemma parent_loaded_before_witness :
  exists j,
    j < 2
    /\ _loaded_packages
         (fst (load_components (plain_config api_classes) 4 api_roots new_manager))
         !! j = Some "app".
Proof.
  apply (parent_loaded_before (plain_config api_classes) 4 api_roots new_manager
           2 "app.api" "app" "api"); reflexivity.
Defined.

(** ** The whole pass: hooks and the loaded flag *)

Section WholePass.
Variable cfg : Config.

(** A property of the state that discovery cannot disturb holds after
    it. *)
Lemma find_in_roots_keeps (Inv : State -> Prop) roots s :
  (forall st name, Inv st -> Inv (add_events [EvLoad name] st)) ->
  (forall st name, Inv st -> Inv (add_disabled name st)) ->
  (forall st name, Inv st -> Inv (add_all name st)) ->
  (forall st c, Inv st -> Inv (with_components c st)) ->
  Inv s -> Inv (fst (find_in_roots cfg roots s)).
Proof.
  intros Hev Hdis Hall Hcomp.
  assert (Hvisit : forall root name files st,
             Inv st -> Inv (fst (visit_package cfg root name files st))).
  { intros root name files st HI. unfold visit_package.
    destruct (_is_ignored_package cfg name); [done|].
    erewrite bind_return by reflexivity.
    destruct (match package_class_of cfg name with
              | Some c => negb (ENABLED c)
              | None => false
              end); [by apply Hdis, Hev|].
    erewrite bind_return by reflexivity.
    destruct (_is_disabled_package _ name); [by apply Hev|].
    by apply Hcomp, Hall, Hev. }
  assert (Hfind : forall root packages st,
             Inv st -> Inv (fst (_find_loadable_components cfg root packages st))).
  { intros root packages. induction packages as [|[name files] rest IH];
      intros st HI; [done|].
    cbn [_find_loadable_components]. unfold bind.
    pose proof (visit_package_frame cfg root name files st) as (_ & _ & Ho).
    pose proof (Hvisit root name files st HI) as H1.
    destruct (visit_package cfg root name files st) as [s1 o]. simpl in Ho, H1.
    subst o. by apply IH. }
  revert s. induction roots as [|[root packages] rest IH]; intros s HI; [done|].
  cbn [find_in_roots]. unfold bind.
  pose proof (find_loadable_components_frame cfg root packages s) as (_ & _ & Ho).
  pose proof (Hfind root packages s HI) as H1.
  destruct (_find_loadable_components cfg root packages s) as [s1 o].
  simpl in Ho, H1. subst o. by apply IH.
Qed.

(** [load_components] on a manager that is not loaded yet: discovery from
    the cleared state, then the tables, then the hooks and the flag. *)
Lemma load_components_unfold depth roots s0 :
  _is_loaded s0 = false ->
  exists s1,
    find_in_roots cfg roots (cleared s0) = (s1, Return tt)
    /\ load_components cfg depth roots s0
       = (load_tables cfg depth (_components s1) ;;;
          _after_packages_loaded ;;; set_is_loaded true) s1.
Proof.
  intros Hflag.
  pose proof (find_in_roots_frame cfg roots (cleared s0)) as (_ & _ & Ho).
  destruct (find_in_roots cfg roots (cleared s0)) as [s1 o] eqn:Hfind.
  simpl in Ho. subst o. exists s1. split; [done|].
  unfold load_components.
  erewrite bind_return by reflexivity. rewrite Hflag.
  erewrite bind_return by reflexivity.
  erewrite bind_return by exact Hfind.
  erewrite bind_return by reflexivity. done.
Qed.

Lemma hooks_step N0 package modules s :
  notified (events s) = N0 ++ _loaded_packages s ->
  notified (events (fst (load_or_defer cfg package modules s)))
  = N0 ++ _loaded_packages (fst (load_or_defer cfg package modules s)).
Proof.
  intros Hinv.
  pose proof (load_or_defer_detail cfg package modules s) as Hd.
  pose proof (load_or_defer_result cfg package modules s) as Hr.
  destruct (load_or_defer cfg package modules s) as [s' o]. simpl.
  inversion Hr as [? ? _ _ Hl|? _ _ Hl|? _ _ Hl]; subst; rewrite Hl;
    inversion Hd as [? ? _ _ Hn|? _ _ Hn|? _ _ Hn]; subst; rewrite Hn, Hinv;
    [done|done|]. by rewrite app_assoc.
Qed.

Lemma flag_step package modules s :
  _is_loaded (fst (load_or_defer cfg package modules s)) = _is_loaded s.
Proof.
  pose proof (load_or_defer_detail cfg package modules s) as Hd.
  destruct (load_or_defer cfg package modules s) as [s' o]. simpl.
  by inversion Hd.
Qed.

End WholePass.

(** X6. Over a whole pass, however it ends, the [package_loaded] hooks are
    called for exactly the packages of [_loaded_packages], once each
    appending, in the order they were loaded. *)
Theorem hooks_follow_loaded cfg depth roots s0 :
  _is_loaded s0 = false ->
  notified (events (fst (load_components cfg depth roots s0)))
  = notified (events s0)
    ++ _loaded_packages (fst (load_components cfg depth roots s0)).
Proof.
  intros Hflag.
  destruct (load_components_unfold cfg depth roots s0 Hflag) as (s1 & Hfind & ->).
  set (Inv := fun st => notified (events st)
                        = notified (events s0) ++ _loaded_packages st).
  assert (H1 : Inv s1).
  { replace s1 with (fst (find_in_roots cfg roots (cleared s0))) by (by rewrite Hfind).
    apply (find_in_roots_keeps cfg Inv); unfold Inv; simpl; try done.
    - intros st name H. rewrite notified_app, H. simpl. by rewrite app_nil_r.
    - by rewrite app_nil_r. }
  pose proof (load_tables_keeps cfg Inv (hooks_step cfg (notified (events s0)))
                depth (_components s1) s1 H1) as H2.
  unfold bind, _after_packages_loaded, set_is_loaded, emit, modify.
  destruct (load_tables cfg depth (_components s1) s1) as [s2 [[]|e|]];
    simpl in H2 |- *; [|done|done].
  rewrite notified_app. simpl. rewrite app_nil_r. apply H2.
Qed.

Lemma hooks_follow_loaded_witness :
  notified (events (fst (load_components (plain_config api_classes) 4 api_roots
                           new_manager)))
  = ["app"; "app.db"; "app.api"].
Proof.
  rewrite (hooks_follow_loaded (plain_config api_classes) 4 api_roots new_manager
             eq_refl).
  reflexivity.
Defined.

(** X7. [load_components] runs at most once: when it returns, the manager
    is flagged as loaded, the [after_packages_loaded] hooks were the last
    thing called if it had work to do, and every later call returns at once
    with the state untouched; when it raises or runs out of recursion on a
    manager that was not loaded, the flag stays down, so that a later call
    starts over. *)
Theorem load_components_once cfg depth roots s :
  (forall s',
      load_components cfg depth roots s = (s', Return tt) ->
      _is_loaded s' = true
      /\ (_is_loaded s = false ->
          exists evs, events s' = evs ++ [EvAfterPackagesLoaded])
      /\ forall depth' roots',
          load_components cfg depth' roots' s' = (s', Return tt))
  /\ (_is_loaded s = false ->
      snd (load_components cfg depth roots s) <> Return tt ->
      _is_loaded (fst (load_components cfg depth roots s)) = false).
Proof.
  assert (Hagain : forall st depth' roots',
             _is_loaded st = true ->
             load_components cfg depth' roots' st = (st, Return tt)).
  { intros st d r Hst. unfold load_components.
    erewrite bind_return by reflexivity. by rewrite Hst. }
  destruct (_is_loaded s) eqn:Hflag.
  - split; [|done]. intros s' Hrun. rewrite Hagain in Hrun by done.
    injection Hrun as <-. split; [done|]. split; [done|]. intros d r.
    by apply Hagain.
  - destruct (load_components_unfold cfg depth roots s Hflag) as (s1 & Hfind & ->).
    assert (H1 : _is_loaded s1 = false).
    { replace s1 with (fst (find_in_roots cfg roots (cleared s))) by (by rewrite Hfind).
      by apply (find_in_roots_keeps cfg (fun st => _is_loaded st = false)). }
    pose proof (load_tables_keeps cfg (fun st => _is_loaded st = false)
                  (fun p m st H => eq_trans (flag_step cfg p m st) H)
                  depth (_components s1) s1 H1) as H2.
    unfold bind, _after_packages_loaded, set_is_loaded, emit, modify.
    destruct (load_tables cfg depth (_components s1) s1) as [s2 [[]|e|]];
      simpl in H2 |- *.
    + split; [|done]. intros s' [= <-]. split; [done|]. split.
      * intros _. by eexists.
      * intros d r. by apply Hagain.
    + split; [done|]. done.
    + split; [done|]. done.
Qed.

(** ** Dependencies on sub-packages *)

Section SubPackage.
Variable cfg : Config.

Lemma check_items_raises_sub package dependencies item s :
  item ∈ dependencies ->
  _contains package item = true ->
  exists e, check_items package dependencies s = (s, Raise e).
Proof.
  intros Hin Hc.
  induction dependencies as [|d rest IH]; [by apply elem_of_nil in Hin|].
  cbn [check_items].
  destruct (_contains package d) eqn:Hd; [by eexists|].
  apply elem_of_cons in Hin as [->|Hin]; [congruence|].
  erewrite bind_return by reflexivity.
  destruct (_dependency_map s !! d) as [rev|]; [|by apply IH].
  destruct (mem package rev); [by eexists|by apply IH].
Qed.

(** The loop over the dependencies raises the sub-package error at the
    first dependency it objects to, when that one is a sub-package. *)
Lemma check_items_sub_first package before item after s :
  (forall x, x ∈ before ->
             _contains package x = false
             /\ forall rev, _dependency_map s !! x = Some rev -> package ∉ rev) ->
  _contains package item = true ->
  check_items package (before ++ item :: after) s
  = (s, Raise (SubPackageDependencyDetectedError package item)).
Proof.
  intros Hbefore Hc.
  induction before as [|b rest IH]; cbn [app check_items].
  - by rewrite Hc.
  - destruct (Hbefore b) as [Hb Hrev]; [left|]. rewrite Hb.
    erewrite bind_return by reflexivity.
    assert (Hrest : forall x, x ∈ rest ->
                 _contains package x = false
                 /\ forall rev, _dependency_map s !! x = Some rev -> package ∉ rev)
      by (intros x Hx; apply Hbefore; by right).
    destruct (_dependency_map s !! b) as [rev|] eqn:Hm; [|by apply IH].
    assert (Hmem : mem package rev = false) by (apply mem_false; by apply Hrev).
    rewrite Hmem. by apply IH.
Qed.

Lemma step_raises_sub package item modules s :
  item ∈ declared_dependencies cfg package ->
  _contains package item = true ->
  exists s' e,
    load_or_defer cfg package modules s = (s', Raise e)
    /\ _loaded_packages s' = _loaded_packages s.
Proof.
  intros Hin Hc. unfold load_or_defer.
  erewrite bind_return by reflexivity.
  fold (declared_dependencies cfg package).
  set (deps := declared_dependencies cfg package) in *.
  set (s1 := add_events [EvLoad package] s).
  destruct (validate_cases cfg package deps s1) as [[e He]|(o & Hv & Ho & Hall & Hself)].
  { erewrite bind_raise by exact He. by eexists _, _. }
  assert (Hraise : exists e,
             _validate_dependencies cfg package deps s1
             = (with_dependency package deps s1, Raise e)).
  { rewrite validate_after_check by done.
    destruct deps as [|d rest]; [by apply elem_of_nil in Hin|].
    cbn [length Nat.leb].
    destruct (mem package (d :: rest)); [by eexists|].
    by apply (check_items_raises_sub package (d :: rest) item). }
  destruct Hraise as [e He]. erewrite bind_raise by exact He. by eexists _, _.
Qed.

End SubPackage.

(** X8. A package that declares a dependency on one of its own
    sub-packages never gets past validation: every step of the loading loop
    on it raises and it is never added to [_loaded_packages].  The error is
    [SubPackageDependencyDetectedError], naming that sub-package, when the
    checks before it pass: all declared dependencies are in [_all_packages],
    the package does not list itself, and no dependency listed earlier is a
    sub-package or already lists the package among its own dependencies. *)
Theorem sub_package_dependency_fails cfg package rest :
  String.append package (String.append "." rest) ∈ declared_dependencies cfg package ->
  (forall s modules,
      exists s' e,
        load_or_defer cfg package modules s = (s', Raise e)
        /\ _loaded_packages s' = _loaded_packages s)
  /\ (forall s before after,
         declared_dependencies cfg package
         = before ++ String.append package (String.append "." rest) :: after ->
         (forall x, x ∈ declared_dependencies cfg package -> x ∈ _all_packages s) ->
         package ∉ declared_dependencies cfg package ->
         (forall x, x ∈ before ->
                    _contains package x = false
                    /\ forall rev, _dependency_map s !! x = Some rev -> package ∉ rev) ->
         _validate_dependencies cfg package (declared_dependencies cfg package) s
         = (with_dependency package (declared_dependencies cfg package) s,
            Raise (SubPackageDependencyDetectedError package
                     (String.append package (String.append "." rest))))).
Proof.
  intros Hin.
  assert (Hc : _contains package (String.append package (String.append "." rest)) = true)
    by (apply contains_iff; right; by exists rest).
  split.
  - intros s modules. by apply (step_raises_sub cfg package _ modules s Hin).
  - intros s before after Hsplit Hall Hself Hbefore.
    rewrite validate_after_check by done.
    destruct (declared_dependencies cfg package) as [|d ds] eqn:Hdeps;
      [by apply elem_of_nil in Hin|].
    cbn [length Nat.leb]. apply mem_false in Hself. rewrite Hself.
    rewrite Hsplit. apply check_items_sub_first; [|done].
    intros x Hx. destruct (Hbefore x Hx) as [Hcx Hrev]. split; [done|].
    intros rev. simpl. rewrite lookup_insert_ne; [apply Hrev|].
    intros <-. apply mem_false in Hself. apply Hself. rewrite Hsplit.
    apply elem_of_app. by left.
Qed.

Lemma sub_package_dependency_fails_witness :
  exists s' e,
    load_or_defer (plain_config nested_classes) "app" []
      (discovered ["app"; "app.db"] []) = (s', Raise e)
    /\ _loaded_packages s' = _loaded_packages (discovered ["app"; "app.db"] []).
Proof.
  apply (sub_package_dependency_fails (plain_config nested_classes) "app" "db").
  apply mem_true. reflexivity.
Defined.

(** ** Discovery of one package *)

Section DictFacts.
Context {V : Type}.

Lemma dict_get_set_eq (d : list (string * V)) k v : dict_get (dict_set d k v) k = Some v.
Proof.
  induction d as [|[k' v'] d IH]; simpl; [by rewrite String.eqb_refl|].
  destruct (String.eqb k' k) eqn:Hk; simpl; by rewrite Hk.
Qed.

Lemma dict_get_set_ne (d : list (string * V)) k k' v :
  k <> k' -> dict_get (dict_set d k v) k' = dict_get d k'.
Proof.
  intros Hne. induction d as [|[k0 v0] d IH]; simpl.
  - by destruct (String.eqb_spec k k').
  - destruct (String.eqb_spec k0 k) as [->|Hk]; simpl.
    + by destruct (String.eqb_spec k k').
    + by rewrite IH.
Qed.

Lemma dict_get_setdefault (d : list (string * V)) k v :
  dict_get (dict_setdefault d k v) k
  = Some (match dict_get d k with Some x => x | None => v end).
Proof.
  unfold dict_setdefault. destruct (dict_get d k) eqn:Hd; [done|].
  apply dict_get_set_eq.
Qed.

End DictFacts.

Section VisitPackage.
Variable cfg : Config.

(** The run of [visit_package] on a package that is kept. *)
Lemma visit_package_kept root name files s :
  _is_ignored_package cfg name = false ->
  match package_class_of cfg name with Some c => ENABLED c | None => true end = true ->
  _is_disabled_package (_disabled_packages s) name = false ->
  visit_package cfg root name files s
  = (with_components
       (dict_set (dict_setdefault (_components s) root []) root
          (dict_set
             (dict_setdefault
                (match dict_get (_components s) root with Some c => c | None => [] end)
                name [])
             name
             (match dict_get
                      (match dict_get (_components s) root with
                       | Some c => c | None => [] end) name with
              | Some l => l | None => [] end
              ++ found_modules cfg name files)))
       (add_all name (add_events [EvLoad name] s)),
     Return tt).
Proof.
  intros Hig Hen Hdis. unfold visit_package. rewrite Hig.
  erewrite bind_return by reflexivity.
  assert (Hen' : match package_class_of cfg name with
                 | Some c => negb (ENABLED c) | None => false end = false).
  { destruct (package_class_of cfg name); [by rewrite Hen|done]. }
  rewrite Hen'. erewrite bind_return by reflexivity.
  change (_disabled_packages (add_events [EvLoad name] s))
    with (_disabled_packages s).
  rewrite Hdis. unfold append_all, set_components, modify, bind.
  change (_components (add_events [EvLoad name] s)) with (_components s).
  rewrite !dict_get_setdefault. done.
Qed.

(** The run of [visit_package] on a package whose class says
    [ENABLED = False]. *)
Lemma visit_package_disabled_class root name files s c :
  _is_ignored_package cfg name = false ->
  package_class_of cfg name = Some c ->
  ENABLED c = false ->
  visit_package cfg root name files s
  = (add_disabled name (add_events [EvLoad name] s), Return tt).
Proof.
  intros Hig Hclass Hen. unfold visit_package. rewrite Hig.
  erewrite bind_return by reflexivity. by rewrite Hclass, Hen.
Qed.

(** The run of [visit_package] on a package under a disabled one. *)
Lemma visit_package_under_disabled root name files s :
  _is_disabled_package (_disabled_packages s) name = true ->
  _all_packages (fst (visit_package cfg root name files s)) = _all_packages s
  /\ _components (fst (visit_package cfg root name files s)) = _components s.
Proof.
  intros Hdis. unfold visit_package.
  destruct (_is_ignored_package cfg name); [done|].
  erewrite bind_return by reflexivity.
  destruct (match package_class_of cfg name with
            | Some c => negb (ENABLED c)
            | None => false
            end); [done|].
  erewrite bind_return by reflexivity.
  change (_disabled_packages (add_events [EvLoad name] s))
    with (_disabled_packages s).
  by rewrite Hdis.
Qed.

Lemma is_disabled_by_prefix disabled name entry :
  entry ∈ disabled ->
  Str.startswith name entry = true ->
  _is_disabled_package disabled name = true.
Proof.
  intros Hin Hpre. unfold _is_disabled_package.
  apply (existsb_elem_of _ _ entry Hin). by rewrite Hpre.
Qed.

End VisitPackage.

(** X9. A package that is neither ignored nor disabled, and whose class,
    if it has one, does not say [ENABLED = False], is imported, added at the
    end of [_all_packages] and given an entry in the table of its root; the
    modules found among its files are appended, in the order of the
    listing, to what the entry held (nothing, for a package seen for the
    first time). *)
Theorem kept_package_is_registered cfg root name files s :
  _is_ignored_package cfg name = false ->
  match package_class_of cfg name with Some c => ENABLED c | None => true end = true ->
  _is_disabled_package (_disabled_packages s) name = false ->
  snd (visit_package cfg root name files s) = Return tt
  /\ _all_packages (fst (visit_package cfg root name files s))
     = _all_packages s ++ [name]
  /\ events (fst (visit_package cfg root name files s)) = events s ++ [EvLoad name]
  /\ exists components,
      dict_get (_components (fst (visit_package cfg root name files s))) root
      = Some components
      /\ dict_get components name
         = Some (match dict_get
                         (match dict_get (_components s) root with
                          | Some c => c | None => [] end) name with
                 | Some l => l | None => [] end
                 ++ found_modules cfg name files).
Proof.
  intros Hig Hen Hdis. rewrite visit_package_kept by done.
  repeat split; try done. simpl.
  eexists. split; [apply dict_get_set_eq|apply dict_get_set_eq].
Qed.

Lemma kept_package_is_registered_witness :
  _all_packages
    (fst (visit_package (plain_config api_classes) "/srv/app" "app.db"
            ["__init__.py"; "models.py"; "README.md"; "views.py"]
            (discovered ["app"] [])))
  = ["app"; "app.db"]
  /\ exists components,
      dict_get
        (_components
           (fst (visit_package (plain_config api_classes) "/srv/app" "app.db"
                   ["__init__.py"; "models.py"; "README.md"; "views.py"]
                   (discovered ["app"] []))))
        "/srv/app" = Some components
      /\ dict_get components "app.db" = Some ["app.db.models"; "app.db.views"].
Proof.
  destruct (kept_package_is_registered (plain_config api_classes) "/srv/app" "app.db"
              ["__init__.py"; "models.py"; "README.md"; "views.py"]
              (discovered ["app"] []) eq_refl eq_refl eq_refl)
    as (_ & Hall & _ & Hcomp).
  split; [exact Hall|exact Hcomp].
Defined.

(** X10. A package whose class says [ENABLED = False] is recorded in
    [_disabled_packages] and registered nowhere; after that, no package
    whose name starts with its name is registered either, and a package that
    declares the disabled one as a dependency fails validation with
    [PackageIsDisabledError] (unless the name is ignored as well, which is
    checked first). *)
Theorem disabled_package_hides_subtree cfg root name files s c :
  _is_ignored_package cfg name = false ->
  package_class_of cfg name = Some c ->
  ENABLED c = false ->
  name ∉ _all_packages s ->
  _all_packages (fst (visit_package cfg root name files s)) = _all_packages s
  /\ _components (fst (visit_package cfg root name files s)) = _components s
  /\ _disabled_packages (fst (visit_package cfg root name files s))
     = _disabled_packages s ++ [name]
  /\ (forall root' rest files',
         _all_packages
           (fst (visit_package cfg root' (String.append name rest) files'
                   (fst (visit_package cfg root name files s))))
         = _all_packages s
         /\ _components
              (fst (visit_package cfg root' (String.append name rest) files'
                      (fst (visit_package cfg root name files s))))
            = _components s)
  /\ (forall package after,
         _validate_dependencies cfg package (name :: after)
           (fst (visit_package cfg root name files s))
         = (fst (visit_package cfg root name files s),
            Raise (PackageIsDisabledError name package))).
Proof.
  intros Hig Hclass Hen Hout.
  rewrite (visit_package_disabled_class cfg root name files s c) by done.
  cbn [fst].
  assert (Hdis : forall rest,
             _is_disabled_package
               (_disabled_packages (add_disabled name (add_events [EvLoad name] s)))
               (String.append name rest) = true).
  { intros rest. apply (is_disabled_by_prefix _ _ name).
    - simpl. apply elem_of_app. right. left.
    - apply prefix_append. }
  split; [done|]. split; [done|]. split; [done|]. split.
  - intros root' rest files'.
    destruct (visit_package_under_disabled cfg root' _ files' _ (Hdis rest))
      as [H1 H2].
    split; [exact H1|exact H2].
  - intros package after. unfold _validate_dependencies.
    erewrite bind_raise; [reflexivity|].
    rewrite (check_dependencies_exist_first_absent cfg package [] name after);
      [|intros x Hx; by apply elem_of_nil in Hx|done].
    rewrite Hig. specialize (Hdis ""). rewrite append_nil_r in Hdis.
    by rewrite Hdis.
Qed.

Definition off_classes (name : string) : option PackageClass :=
  if String.eqb name "app.old"
  then Some {| DEPENDS := []; ENABLED := false; COMPONENT_NAME := None |}
  else None.

Lemma disabled_package_hides_subtree_witness :
  _disabled_packages
    (fst (visit_package (plain_config off_classes) "/srv/app" "app.old"
            ["__init__.py"] (discovered ["app"] [])))
  = ["app.old"]
  /\ _all_packages
       (fst (visit_package (plain_config off_classes) "/srv/app" "app.old.v1"
               ["__init__.py"; "models.py"]
               (fst (visit_package (plain_config off_classes) "/srv/app" "app.old"
                       ["__init__.py"] (discovered ["app"] [])))))
     = ["app"].
Proof.
  destruct (disabled_package_hides_subtree (plain_config off_classes) "/srv/app"
              "app.old" ["__init__.py"] (discovered ["app"] [])
              {| DEPENDS := []; ENABLED := false; COMPONENT_NAME := None |}
              eq_refl eq_refl eq_refl ltac:(apply mem_false; reflexivity))
    as (_ & _ & Hd & Hsub & _).
  split; [exact Hd|].
  exact (proj1 (Hsub "/srv/app" ".v1" ["__init__.py"; "models.py"])).
Defined.

(** ** Which directories the walk enters *)

(** [_is_included] *)
Definition _is_included (include : list string) (visiting_path : string) : bool :=
  if length include <=? 0 then true
  else existsb (fun path => Str.startswith visiting_path path) include.

(** [_is_excluded] *)
Definition _is_excluded (exclude : list string) (visiting_path : string) : bool :=
  if length exclude <=? 0 then false
  else existsb (fun path => Str.startswith visiting_path path) exclude.

(** [_should_visit] *)
Definition _should_visit (include exclude : list string) (visiting_path : string)
  : bool :=
  _is_included include visiting_path && negb (_is_excluded exclude visiting_path).

(** [[item for item in self._roots if item != root]], the paths
    [load_components] excludes while it searches [root]. *)
Definition other_roots (roots : list string) (root : string) : list string :=
  List.filter (fun item => negb (String.eqb item root)) roots.

Lemma is_excluded_true exclude path entry :
  entry ∈ exclude ->
  Str.startswith path entry = true ->
  _is_excluded exclude path = true.
Proof.
  intros Hin Hpre. unfold _is_excluded.
  destruct exclude as [|e rest]; [by apply elem_of_nil in Hin|].
  cbn [length Nat.leb]. by apply (existsb_elem_of _ _ entry).
Qed.

Lemma existsb_true_elem {A} (f : A -> bool) (l : list A) :
  existsb f l = true -> exists x, x ∈ l /\ f x = true.
Proof.
  intros (x & Hx & Hf)%existsb_exists. exists x. split; [|done].
  by apply list_elem_of_In.
Qed.

(** X11. While [load_components] searches one root, a directory is entered
    exactly when its path starts with that root's path and with no other
    root's path, both compared as plain strings.  So when the path of a root
    starts with the path of another root, such as [/srv/app2] beside
    [/srv/app], nothing at or below it is entered. *)
Theorem walk_enters_own_root_only roots root path :
  (_should_visit [root] (other_roots roots root) path = true
   <-> Str.startswith path root = true
       /\ forall other, other ∈ roots -> other <> root ->
                        Str.startswith path other = false)
  /\ (forall other,
         other ∈ roots -> other <> root ->
         Str.startswith root other = true ->
         Str.startswith path root = true ->
         _should_visit [root] (other_roots roots root) path = false).
Proof.
  assert (Hother : forall other,
             other ∈ other_roots roots root <-> other ∈ roots /\ other <> root).
  { intros other. unfold other_roots. rewrite !list_elem_of_In, filter_In.
    rewrite negb_true_iff, String.eqb_neq. done. }
  assert (Hiff : _should_visit [root] (other_roots roots root) path = true
                 <-> Str.startswith path root = true
                     /\ forall other, other ∈ roots -> other <> root ->
                                      Str.startswith path other = false).
  { unfold _should_visit, _is_included. cbn [length Nat.leb existsb].
    rewrite orb_false_r, andb_true_iff, negb_true_iff. split.
    - intros [Hin Hex]. split; [done|]. intros other Ho Hne.
      destruct (Str.startswith path other) eqn:Hpre; [|done].
      rewrite (is_excluded_true _ _ other) in Hex; [done| |done].
      by apply Hother.
    - intros [Hin Hnone]. split; [done|].
      unfold _is_excluded. destruct (length (other_roots roots root) <=? 0); [done|].
      destruct (existsb _ (other_roots roots root)) eqn:Hex; [|done].
      apply existsb_true_elem in Hex as (other & [Ho Hne]%Hother & Hpre).
      by rewrite (Hnone other Ho Hne) in Hpre. }
  split; [exact Hiff|].
  intros other Ho Hne Hroot Hpath.
  apply not_true_iff_false. intros [_ Hnone]%Hiff.
  specialize (Hnone other Ho Hne). unfold Str.startswith in *.
  by rewrite (prefix_trans other root path) in Hnone.
Qed.

Lemma walk_enters_own_root_only_witness :
  _should_visit ["/srv/app2"] (other_roots ["/srv/app"; "/srv/app2"] "/srv/app2")
    "/srv/app2/api" = false.
Proof.
  apply (proj2 (walk_enters_own_root_only ["/srv/app"; "/srv/app2"] "/srv/app2"
                  "/srv/app2/api") "/srv/app").
  - apply mem_true. reflexivity.
  - discriminate.
  - reflexivity.
  - reflexivity.
Defined.

(** ** Wildcard conditions *)

Lemma is_equal_loop_iff condition_parts parts :
  length condition_parts <= length parts ->
  _is_equal_loop condition_parts parts = true
  <-> forall i c, condition_parts !! i = Some c -> c = "*" \/ parts !! i = Some c.
Proof.
  revert parts. induction condition_parts as [|item rest IH]; intros parts Hlen.
  - split; [|done]. intros _ i c. by rewrite lookup_nil.
  - destruct parts as [|p parts]; [simpl in Hlen; lia|].
    cbn [_is_equal_loop hd tl]. simpl in Hlen.
    assert (Hstep : (item = "*" \/ item = p) ->
                    (_is_equal_loop rest parts = true
                     <-> forall i c, (item :: rest) !! i = Some c ->
                                     c = "*" \/ (p :: parts) !! i = Some c)).
    { intros Hhead. rewrite IH by lia. split.
      - intros H [|i] c Hc; [|by apply H].
        injection Hc as <-. destruct Hhead as [->| ->]; [by left|by right].
      - intros H i c Hc. by apply (H (S i)). }
    destruct (String.eqb_spec item "*") as [Hstar|Hstar];
      destruct (String.eqb_spec item p) as [Heq|Hne]; cbn [negb andb];
      [apply Hstep; by left|apply Hstep; by left|apply Hstep; by right|].
    split; [done|]. intros H.
    destruct (H 0 item eq_refl) as [?|[= ?]]; done.
Qed.

Lemma is_equal_iff condition name :
  _is_equal condition name = true
  <-> length (Str.split_dots condition) <= length (Str.split_dots name)
      /\ forall i c, Str.split_dots condition !! i = Some c ->
                     c = "*" \/ Str.split_dots name !! i = Some c.
Proof.
  unfold _is_equal.
  destruct (Nat.ltb_spec (length (Str.split_dots name))
              (length (Str.split_dots condition))) as [Hlt|Hge].
  - split; [done|]. intros [? _]. lia.
  - rewrite is_equal_loop_iff by done. split; [by split|by intros [_ ?]].
Qed.

(** X12. [_is_equal condition name] holds exactly when the condition has
    no more dot-separated segments than the name and each of its segments is
    [*] or equals the segment of the name at the same place; in particular a
    condition matches itself and every name below it. *)
Theorem is_equal_segmentwise condition name :
  (_is_equal condition name = true
   <-> length (Str.split_dots condition) <= length (Str.split_dots name)
       /\ forall i c, Str.split_dots condition !! i = Some c ->
                      c = "*" \/ Str.split_dots name !! i = Some c)
  /\ _is_equal condition condition = true
  /\ forall rest,
      _is_equal condition (String.append condition (String.append "." rest)) = true.
Proof.
  split; [apply is_equal_iff|]. split.
  - apply is_equal_iff. split; [done|]. intros i c Hc. by right.
  - intros rest. apply is_equal_iff. rewrite split_app, length_app.
    split; [lia|]. intros i c Hc. right. by apply lookup_app_l_Some.
Qed.

(** ** Module files with plain names *)

Lemma endswith_append a b : Str.endswith (String.append a b) b = true.
Proof.
  induction a as [|c a IH].
  - rewrite append_nil_l. destruct b; simpl; [done|].
    by rewrite Ascii.eqb_refl, String.eqb_refl.
  - rewrite append_cons. cbn [Str.endswith]. rewrite IH. apply orb_true_r.
Qed.

Lemma replace_py_dotless stem :
  dotless stem = true ->
  Str.replace (String.append stem ".py") ".py" "" = stem.
Proof.
  unfold Str.replace. induction stem as [|c stem IH]; [done|].
  cbn [dotless]. intros [Hc Hs]%andb_true_iff. apply negb_true_iff in Hc.
  rewrite append_cons. cbn [Str.replace_from String.prefix].
  destruct (ascii_dec "." c) as [<-|_]; [done|].
  by rewrite IH.
Qed.

(** X13. Of the files of a package directory, [found_modules] passes over
    those whose name does not end in [.py], and [__init__.py]; a file
    [stem.py] whose stem has no dot and whose name does not contain
    [__init__.py] is recorded as [package.stem], unless that module name is
    ignored, and the files after it are treated the same way, so the modules
    keep the order of the listing. *)
Theorem plain_module_files cfg package stem rest :
  dotless stem = true ->
  Str.contains (String.append stem ".py") "__init__.py" = false ->
  found_modules cfg package (String.append stem ".py" :: rest)
  = (if _is_ignored_module cfg (String.append package (String.append "." stem))
     then []
     else [String.append package (String.append "." stem)])
    ++ found_modules cfg package rest
  /\ found_modules cfg package ("__init__.py" :: rest) = found_modules cfg package rest
  /\ forall other,
      Str.endswith other ".py" = false ->
      found_modules cfg package (other :: rest) = found_modules cfg package rest.
Proof.
  intros Hstem Hinit. split; [|split].
  - cbn [found_modules]. unfold _is_module.
    rewrite endswith_append, Hinit. cbn [andb negb].
    rewrite replace_py_dotless by done. unfold _get_module_name.
    by destruct (_is_ignored_module cfg _).
  - reflexivity.
  - intros other Hother. cbn [found_modules]. unfold _is_module.
    by rewrite Hother.
Qed.

Lemma plain_module_files_witness :
  found_modules (plain_config no_classes) "app.db"
    ["models.py"; "notes.txt"; "__init__.py"; "views.py"]
  = ["app.db.models"; "app.db.views"].
Proof.
  exact (eq_trans
           (proj1 (plain_module_files (plain_config no_classes) "app.db" "models"
                     ["notes.txt"; "__init__.py"; "views.py"] eq_refl eq_refl))
           eq_refl).
Defined.

(** ** A pass that returns has loaded every discovered package *)

Section Discovered.
Variable cfg : Config.

Lemma dict_set_elem {V} (d : list (string * V)) k v r c :
  (r, c) ∈ d ->
  (r, c) ∈ dict_set d k v \/ (r = k /\ dict_get d k = Some c).
Proof.
  induction d as [|[k0 v0] d IH]; [intros H; by apply elem_of_nil in H|].
  simpl. destruct (String.eqb_spec k0 k) as [->|Hne].
  - intros [[= -> ->]|Hin]%elem_of_cons; [by right|]. left. by right.
  - intros [[= -> ->]|Hin]%elem_of_cons; [left; left|].
    destruct (IH Hin) as [?|[-> ?]]; [left; by right|by right].
Qed.

Lemma dict_set_elem_new {V} (d : list (string * V)) k v : (k, v) ∈ dict_set d k v.
Proof.
  induction d as [|[k0 v0] d IH]; simpl; [left|].
  destruct (String.eqb_spec k0 k) as [->|Hne]; [left|by right].
Qed.

Lemma keys_dict_setdefault {V} (d : list (string * V)) k v x :
  x ∈ keys d -> x ∈ keys (dict_setdefault d k v).
Proof.
  unfold dict_setdefault. destruct (dict_get d k); [done|].
  intros H. apply keys_dict_set. by right.
Qed.

(** Every discovered package has an entry in the table of some root. *)
Definition listed_in_tables (s : State) : Prop :=
  forall name, name ∈ _all_packages s ->
    exists root components,
      (root, components) ∈ _components s /\ name ∈ keys components.

Lemma visit_package_listed root name files s :
  listed_in_tables s ->
  listed_in_tables (fst (visit_package cfg root name files s)).
Proof.
  intros Hinv. unfold visit_package.
  destruct (_is_ignored_package cfg name); [done|].
  erewrite bind_return by reflexivity.
  destruct (match package_class_of cfg name with
            | Some c => negb (ENABLED c)
            | None => false
            end); [done|].
  erewrite bind_return by reflexivity.
  destruct (_is_disabled_package _ name); [done|].
  unfold append_all, set_components, modify, bind. cbn [fst].
  change (_components (add_events [EvLoad name] s)) with (_components s).
  set (R := dict_setdefault (_components s) root []).
  set (c0 := match dict_get R root with Some c => c | None => [] end).
  set (NEW := dict_set (dict_setdefault c0 name []) name _).
  assert (Hnew : (root, NEW) ∈ dict_set R root NEW) by apply dict_set_elem_new.
  assert (Hkeys : forall x, x ∈ keys c0 -> x ∈ keys NEW).
  { intros x Hx. apply keys_dict_set. right. by apply keys_dict_setdefault. }
  intros x. simpl. intros [Hx|Hx%list_elem_of_singleton]%elem_of_app.
  - destruct (Hinv x Hx) as (r & c & Hin & Hk).
    assert (HinR : (r, c) ∈ R).
    { unfold R, dict_setdefault.
      destruct (dict_get (_components s) root) eqn:Hg; [done|].
      destruct (dict_set_elem (_components s) root [] r c Hin) as [?|[-> Hg']];
        [done|congruence]. }
    destruct (dict_set_elem R root NEW r c HinR) as [?|[-> Hg]].
    + by exists r, c.
    + exists root, NEW. split; [done|]. apply Hkeys. unfold c0. by rewrite Hg.
  - subst x. exists root, NEW. split; [done|]. apply keys_dict_set. by left.
Qed.

Lemma find_in_roots_listed roots s :
  listed_in_tables s -> listed_in_tables (fst (find_in_roots cfg roots s)).
Proof.
  assert (Hfind : forall root packages st,
             listed_in_tables st ->
             listed_in_tables (fst (_find_loadable_components cfg root packages st))).
  { intros root packages. induction packages as [|[name files] rest IH];
      intros st HI; [done|].
    cbn [_find_loadable_components]. unfold bind.
    pose proof (visit_package_frame cfg root name files st) as (_ & _ & Ho).
    pose proof (visit_package_listed root name files st HI) as H1.
    destruct (visit_package cfg root name files st) as [s1 o]. simpl in Ho, H1.
    subst o. by apply IH. }
  revert s. induction roots as [|[root packages] rest IH]; intros s HI; [done|].
  cbn [find_in_roots]. unfold bind.
  pose proof (find_loadable_components_frame cfg root packages s) as (_ & _ & Ho).
  pose proof (Hfind root packages s HI) as H1.
  destruct (_find_loadable_components cfg root packages s) as [s1 o].
  simpl in Ho, H1. subst o. by apply IH.
Qed.

Lemma all_packages_step package modules s :
  _all_packages (fst (load_or_defer cfg package modules s)) = _all_packages s.
Proof.
  pose proof (load_or_defer_result cfg package modules s) as H.
  by inversion H.
Qed.

End Discovered.

(** X14. When [load_components] returns on a manager that was not loaded,
    every package that discovery put in [_all_packages] is in
    [_loaded_packages]: nothing that was found is left out. *)
Theorem returned_pass_loaded_all_discovered cfg depth roots s0 s' name :
  _is_loaded s0 = false ->
  load_components cfg depth roots s0 = (s', Return tt) ->
  name ∈ _all_packages s' ->
  name ∈ _loaded_packages s'.
Proof.
  intros Hflag.
  destruct (load_components_unfold cfg depth roots s0 Hflag) as (s1 & Hfind & ->).
  assert (H1 : listed_in_tables s1).
  { replace s1 with (fst (find_in_roots cfg roots (cleared s0))) by (by rewrite Hfind).
    apply find_in_roots_listed. intros x Hx. by apply elem_of_nil in Hx. }
  pose proof (load_tables_keeps cfg (fun st => _all_packages st = _all_packages s1)
                (fun p m st H => eq_trans (all_packages_step cfg p m st) H)
                depth (_components s1) s1 eq_refl) as Hall.
  unfold bind, _after_packages_loaded, set_is_loaded, emit, modify.
  destruct (load_tables cfg depth (_components s1) s1) as [s2 [[]|e|]] eqn:Hrun;
    [|done|done].
  simpl in Hall. intros [= <-]. simpl. rewrite Hall. intros Hin.
  destruct (H1 name Hin) as (root & components & Htab & Hkey).
  apply load_tables_complete in Hrun as [_ Hk]. by apply (Hk root components).
Qed.

Lemma returned_pass_loaded_all_discovered_witness :
  "app.api" ∈ _loaded_packages
     (fst (load_components (plain_config api_classes) 4 api_roots new_manager)).
Proof.
  apply (returned_pass_loaded_all_discovered (plain_config api_classes) 4 api_roots
           new_manager
           (fst (load_components (plain_config api_classes) 4 api_roots new_manager))
           "app.api" eq_refl).
  - vm_compute. reflexivity.
  - apply mem_true. vm_compute. reflexivity.
Defined.

(** ** When validation passes *)

Section ValidationPasses.
Variable cfg : Config.

Lemma check_items_returns_iff package dependencies s :
  check_items package dependencies s = (s, Return tt)
  <-> forall d, d ∈ dependencies ->
                _contains package d = false
                /\ forall rev, _dependency_map s !! d = Some rev -> package ∉ rev.
Proof.
  induction dependencies as [|item rest IH]; cbn [check_items].
  - split; [|done]. intros _ d Hd. by apply elem_of_nil in Hd.
  - destruct (_contains package item) eqn:Hc.
    { split; [done|]. intros H. destruct (H item) as [Hf _]; [left|congruence]. }
    erewrite bind_return by reflexivity.
    destruct (_dependency_map s !! item) as [rev|] eqn:Hm.
    + destruct (mem package rev) eqn:Hmem.
      * split; [done|]. intros H. destruct (H item) as [_ Hrev]; [left|].
        apply mem_true in Hmem. by destruct (Hrev rev Hm).
      * rewrite IH. apply mem_false in Hmem. split.
        -- intros H d [->|Hd]%elem_of_cons; [|by apply H].
           split; [done|]. intros rev'. rewrite Hm. by intros [= <-].
        -- intros H d Hd. apply H. by right.
    + rewrite IH. split.
      * intros H d [->|Hd]%elem_of_cons; [|by apply H].
        split; [done|]. intros rev'. by rewrite Hm.
      * intros H d Hd. apply H. by right.
Qed.

Lemma validate_returns_iff package dependencies s :
  snd (_validate_dependencies cfg package dependencies s) = Return tt
  <-> (forall d, d ∈ dependencies -> d ∈ _all_packages s)
      /\ (package ∉ dependencies)
      /\ forall d, d ∈ dependencies ->
                   _contains package d = false
                   /\ forall rev, _dependency_map s !! d = Some rev -> package ∉ rev.
Proof.
  split.
  - intros Hret.
    destruct (validate_cases cfg package dependencies s)
      as [[e He]|(o & Hv & Ho & Hall & Hself)]; [by rewrite He in Hret|].
    pose proof Hv as Hv'. rewrite Hv in Hret. simpl in Hret. subst o.
    specialize (Hself eq_refl). split; [done|]. split; [done|].
    rewrite validate_after_check in Hv' by done.
    destruct dependencies as [|d0 rest].
    { intros d Hd. by apply elem_of_nil in Hd. }
    cbn [length Nat.leb] in Hv'. apply mem_false in Hself. rewrite Hself in Hv'.
    pose proof (proj1 (check_items_returns_iff _ _ _) Hv') as Hitems.
    intros d Hd. destruct (Hitems d Hd) as [Hc Hrev]. split; [done|].
    intros rev Hm. apply Hrev. simpl. rewrite lookup_insert_ne; [done|].
    intros <-. apply mem_false in Hself. by apply Hself.
  - intros (Hall & Hself & Hitems).
    rewrite validate_after_check by done.
    destruct dependencies as [|d0 rest]; [done|].
    cbn [length Nat.leb]. pose proof Hself as Hmem. apply mem_false in Hmem.
    rewrite Hmem.
    assert (Hrun : check_items package (d0 :: rest)
                     (with_dependency package (d0 :: rest) s)
                   = (with_dependency package (d0 :: rest) s, Return tt)).
    { apply check_items_returns_iff. intros d Hd.
      destruct (Hitems d Hd) as [Hc Hrev]. split; [done|].
      intros rev. simpl. rewrite lookup_insert_ne; [apply Hrev|].
      by intros <-. }
    by rewrite Hrun.
Qed.

End ValidationPasses.

(** X15. [_validate_dependencies] returns exactly when every declared
    dependency is in [_all_packages], the package is not among them, and no
    dependency is a sub-package of the package or already has an entry in
    the dependency map that lists the package; in every other case it
    raises. *)
Theorem validation_passes_iff cfg package dependencies s :
  (snd (_validate_dependencies cfg package dependencies s) = Return tt
   <-> (forall d, d ∈ dependencies -> d ∈ _all_packages s)
       /\ (package ∉ dependencies)
       /\ forall d, d ∈ dependencies ->
                    _contains package d = false
                    /\ forall rev, _dependency_map s !! d = Some rev -> package ∉ rev)
  /\ (snd (_validate_dependencies cfg package dependencies s) <> Return tt ->
      exists e, snd (_validate_dependencies cfg package dependencies s) = Raise e).
Proof.
  split; [apply validate_returns_iff|].
  intros Hnot.
  destruct (validate_cases cfg package dependencies s)
    as [[e He]|(o & Hv & Ho & _ & _)].
  - rewrite He. by eexists.
  - rewrite Hv in Hnot |- *. simpl in *. destruct o as [[]|e|]; [done|by eexists|done].
Qed.

(** ** The name of the first module *)

Lemma last_split_app a b :
  dotless b = true ->
  List.last (Str.split_dots (String.append a (String.append "." b))) "" = b.
Proof.
  intros Hb. rewrite split_app, (split_dotless b) by done. apply last_last.
Qed.

(** X16. Only the last dot-separated segment of a component name counts:
    [_merge_module_name] turns [a.b] (with [b] free of dots) into
    [package.b], and a name without dots [c] into [package.c]; so
    [_load_component] does the same for [COMPONENT_NAME = a.b] as for
    [COMPONENT_NAME = b]. *)
Theorem component_name_last_segment cfg package a b :
  dotless b = true ->
  _merge_module_name package (String.append a (String.append "." b))
  = String.append package (String.append "." b)
  /\ _merge_module_name package b = String.append package (String.append "." b)
  /\ forall modules s,
      _load_component cfg package modules
        (Some (String.append a (String.append "." b))) s
      = _load_component cfg package modules (Some b) s.
Proof.
  intros Hb.
  assert (H1 : _merge_module_name package (String.append a (String.append "." b))
               = String.append package (String.append "." b)).
  { unfold _merge_module_name, _get_module_name. by rewrite last_split_app. }
  assert (H2 : _merge_module_name package b
               = String.append package (String.append "." b)).
  { unfold _merge_module_name, _get_module_name. by rewrite split_dotless. }
  split; [done|]. split; [done|].
  intros modules s. unfold _load_component. by rewrite H1, H2.
Qed.

Lemma component_name_last_segment_witness :
  _merge_module_name "my_app.database" "database.component"
  = "my_app.database.component".
Proof.
  exact (proj1 (component_name_last_segment (plain_config no_classes)
                  "my_app.database" "database" "component" eq_refl)).
Defined.

(** ** Only discovered packages are loaded *)

Section OnlyDiscovered.
Variable cfg : Config.

Lemma dict_set_elem_inv {V} (d : list (string * V)) k v r c :
  (r, c) ∈ dict_set d k v -> (r, c) ∈ d \/ (r = k /\ c = v).
Proof.
  induction d as [|[k0 v0] d IH]; simpl.
  - intros H%list_elem_of_singleton. injection H as -> ->. by right.
  - destruct (String.eqb_spec k0 k) as [->|Hne].
    + intros [[= -> ->]|Hin]%elem_of_cons; [by right|]. left. by right.
    + intros [[= -> ->]|Hin]%elem_of_cons; [left; left|].
      destruct (IH Hin) as [?|?]; [left; by right|by right].
Qed.

Lemma dict_get_elem {V} (d : list (string * V)) k c :
  dict_get d k = Some c -> (k, c) ∈ d.
Proof.
  induction d as [|[k0 v0] d IH]; simpl; [done|].
  destruct (String.eqb_spec k0 k) as [->|Hne].
  - intros [= ->]. left.
  - intros H. right. by apply IH.
Qed.

Lemma keys_dict_setdefault_inv {V} (d : list (string * V)) k v x :
  x ∈ keys (dict_setdefault d k v) -> x = k \/ x ∈ keys d.
Proof.
  unfold dict_setdefault. destruct (dict_get d k); [by right|].
  by intros H%keys_dict_set.
Qed.

(** What discovery guarantees about its lists: the tables hold discovered
    packages only; a discovered package is not ignored and its class, if
    any, does not switch it off; a package in the disabled list has a class
    that switches it off. *)
Definition well_discovered (s : State) : Prop :=
  (forall root components name,
      (root, components) ∈ _components s -> name ∈ keys components ->
      name ∈ _all_packages s)
  /\ (forall name, name ∈ _all_packages s ->
        _is_ignored_package cfg name = false
        /\ match package_class_of cfg name with
           | Some c => ENABLED c | None => true end = true)
  /\ (forall name, name ∈ _disabled_packages s ->
        exists c, package_class_of cfg name = Some c /\ ENABLED c = false).

Lemma visit_package_well root name files s :
  well_discovered s -> well_discovered (fst (visit_package cfg root name files s)).
Proof.
  intros (Htab & Hall & Hdis). unfold visit_package.
  destruct (_is_ignored_package cfg name) eqn:Hig; [done|].
  erewrite bind_return by reflexivity.
  destruct (package_class_of cfg name) as [c|] eqn:Hclass.
  - destruct (ENABLED c) eqn:Hen; cbn [negb].
    + erewrite bind_return by reflexivity.
      destruct (_is_disabled_package _ name); [done|].
      unfold append_all, set_components, modify, bind. cbn [fst].
      change (_components (add_events [EvLoad name] s)) with (_components s).
      split; [|split]; simpl.
      * intros r comps x [Hin|[-> ->]]%dict_set_elem_inv Hx.
        -- apply elem_of_app. left. apply (Htab r comps); [|done].
           unfold dict_setdefault in Hin.
           destruct (dict_get (_components s) root); [done|].
           apply dict_set_elem_inv in Hin as [?|[-> ->]]; [done|].
           by apply elem_of_nil in Hx.
        -- apply keys_dict_set in Hx as [->|Hx];
             [apply elem_of_app; right; left|].
           apply keys_dict_setdefault_inv in Hx as [->|Hx];
             [apply elem_of_app; right; left|].
           apply elem_of_app. left. rewrite dict_get_setdefault in Hx.
           destruct (dict_get (_components s) root) as [c0|] eqn:Hg;
             [|by apply elem_of_nil in Hx].
           apply (Htab root c0); [|done]. by apply dict_get_elem.
      * intros x [Hx|Hx%list_elem_of_singleton]%elem_of_app; [by apply Hall|].
        subst x. by rewrite Hclass.
      * done.
    + split; [done|]. split; [done|]. simpl.
      intros x [Hx|Hx%list_elem_of_singleton]%elem_of_app; [by apply Hdis|].
      subst x. by exists c.
  - erewrite bind_return by reflexivity.
    destruct (_is_disabled_package _ name); [done|].
    unfold append_all, set_components, modify, bind. cbn [fst].
    change (_components (add_events [EvLoad name] s)) with (_components s).
    split; [|split]; simpl.
    + intros r comps x [Hin|[-> ->]]%dict_set_elem_inv Hx.
      * apply elem_of_app. left. apply (Htab r comps); [|done].
        unfold dict_setdefault in Hin.
        destruct (dict_get (_components s) root); [done|].
        apply dict_set_elem_inv in Hin as [?|[-> ->]]; [done|].
        by apply elem_of_nil in Hx.
      * apply keys_dict_set in Hx as [->|Hx];
          [apply elem_of_app; right; left|].
        apply keys_dict_setdefault_inv in Hx as [->|Hx];
          [apply elem_of_app; right; left|].
        apply elem_of_app. left. rewrite dict_get_setdefault in Hx.
        destruct (dict_get (_components s) root) as [c0|] eqn:Hg;
          [|by apply elem_of_nil in Hx].
        apply (Htab root c0); [|done]. by apply dict_get_elem.
    + intros x [Hx|Hx%list_elem_of_singleton]%elem_of_app; [by apply Hall|].
      subst x. by rewrite Hclass.
    + done.
Qed.

Lemma find_in_roots_well roots s :
  well_discovered s -> well_discovered (fst (find_in_roots cfg roots s)).
Proof.
  assert (Hfind : forall root packages st,
             well_discovered st ->
             well_discovered (fst (_find_loadable_components cfg root packages st))).
  { intros root packages. induction packages as [|[name files] rest IH];
      intros st HI; [done|].
    cbn [_find_loadable_components]. unfold bind.
    pose proof (visit_package_frame cfg root name files st) as (_ & _ & Ho).
    pose proof (visit_package_well root name files st HI) as H1.
    destruct (visit_package cfg root name files st) as [s1 o]. simpl in Ho, H1.
    subst o. by apply IH. }
  revert s. induction roots as [|[root packages] rest IH]; intros s HI; [done|].
  cbn [find_in_roots]. unfold bind.
  pose proof (find_loadable_components_frame cfg root packages s) as (_ & _ & Ho).
  pose proof (Hfind root packages s HI) as H1.
  destruct (_find_loadable_components cfg root packages s) as [s1 o].
  simpl in Ho, H1. subst o. by apply IH.
Qed.

(** Invariants whose step needs the package to be one of the table. *)
Lemma sweep_keeps_on (Inv : State -> Prop) (A : string -> Prop) components waiting s :
  (forall p m st, A p -> Inv st -> Inv (fst (load_or_defer cfg p m st))) ->
  (forall k, k ∈ keys components -> A k) ->
  (forall k, k ∈ keys waiting -> A k) ->
  Inv s ->
  Inv (fst (sweep cfg components waiting s))
  /\ forall s' d, sweep cfg components waiting s = (s', Return d) ->
                  forall k, k ∈ keys d -> A k.
Proof.
  intros Hstep. revert waiting s.
  induction components as [|[package modules] rest IH]; intros waiting s Hc Hw HI.
  - split; [done|]. cbn [sweep]. unfold ret. by intros s' d [= <- <-].
  - cbn [sweep]. unfold bind.
    assert (Hp : A package) by (apply Hc; left).
    pose proof (Hstep package modules s Hp HI) as H1.
    destruct (load_or_defer cfg package modules s) as [s1 [b|e|]]; simpl in H1;
      [|done|done].
    apply IH; [intros k Hk; apply Hc; by right| |done].
    destruct b; [done|]. intros k [->|Hk]%keys_dict_set; auto.
Qed.

Lemma load_components_keeps_on (Inv : State -> Prop) (A : string -> Prop)
    depth components s :
  (forall p m st, A p -> Inv st -> Inv (fst (load_or_defer cfg p m st))) ->
  (forall k, k ∈ keys components -> A k) ->
  Inv s ->
  Inv (fst (_load_components cfg depth components s)).
Proof.
  intros Hstep. revert components s.
  induction depth as [|depth IH]; intros components s Hc HI; [done|].
  cbn [_load_components]. unfold bind.
  destruct (sweep_keeps_on Inv A components [] s Hstep Hc) as [H1 Hd]; [|done|].
  { intros k Hk. by apply elem_of_nil in Hk. }
  destruct (sweep cfg components [] s) as [s1 [d|e|]]; simpl in H1; [|done|done].
  destruct (0 <? length d); [|done]. apply IH; [|done]. by apply (Hd s1 d).
Qed.

Lemma load_tables_keeps_on (Inv : State -> Prop) (A : string -> Prop)
    depth tables s :
  (forall p m st, A p -> Inv st -> Inv (fst (load_or_defer cfg p m st))) ->
  (forall root components k, (root, components) ∈ tables -> k ∈ keys components -> A k) ->
  Inv s ->
  Inv (fst (load_tables cfg depth tables s)).
Proof.
  intros Hstep. revert s.
  induction tables as [|[root components] rest IH]; intros s Ht HI; [done|].
  cbn [load_tables]. unfold bind.
  pose proof (load_components_keeps_on Inv A depth components s Hstep) as H1.
  destruct (_load_components cfg depth components s) as [s1 [[]|e|]];
    simpl in H1.
  - apply IH; [intros r c k Hin; apply (Ht r c k); by right|].
    apply H1; [|done]. intros k Hk. apply (Ht root components); [left|done].
  - apply H1; [|done]. intros k Hk. apply (Ht root components); [left|done].
  - apply H1; [|done]. intros k Hk. apply (Ht root components); [left|done].
Qed.

Lemma loaded_within_step (A : string -> Prop) package modules s :
  A package ->
  (forall x, x ∈ _loaded_packages s -> A x) ->
  forall x, x ∈ _loaded_packages (fst (load_or_defer cfg package modules s)) -> A x.
Proof.
  intros Hp Hinv.
  pose proof (load_or_defer_result cfg package modules s) as H.
  inversion H as [s' e _ _ Hl _ Heq|s' _ _ Hl _ Heq|s' _ _ Hl _ _ _ Heq];
    simpl; rewrite Hl; [done|done|].
  intros x [Hx|Hx%list_elem_of_singleton]%elem_of_app; [auto|by subst].
Qed.

Lemma lists_step package modules s :
  _all_packages (fst (load_or_defer cfg package modules s)) = _all_packages s
  /\ _disabled_packages (fst (load_or_defer cfg package modules s))
     = _disabled_packages s.
Proof.
  pose proof (load_or_defer_result cfg package modules s) as H.
  by inversion H.
Qed.

End OnlyDiscovered.

(** X17. In the state a pass ends in, however it ends, every package of
    [_loaded_packages] was discovered (it is in [_all_packages]), is not
    ignored, is not in [_disabled_packages], and has no class that says
    [ENABLED = False]. *)
Theorem loaded_packages_were_discovered cfg depth roots s0 name :
  _is_loaded s0 = false ->
  name ∈ _loaded_packages (fst (load_components cfg depth roots s0)) ->
  name ∈ _all_packages (fst (load_components cfg depth roots s0))
  /\ _is_ignored_package cfg name = false
  /\ (name ∉ _disabled_packages (fst (load_components cfg depth roots s0)))
  /\ match package_class_of cfg name with Some c => ENABLED c | None => true end = true.
Proof.
  intros Hflag.
  destruct (load_components_unfold cfg depth roots s0 Hflag) as (s1 & Hfind & ->).
  assert (H1 : well_discovered cfg s1).
  { replace s1 with (fst (find_in_roots cfg roots (cleared s0))) by (by rewrite Hfind).
    apply find_in_roots_well. split; [|split]; simpl.
    - intros r c x Hin. by apply elem_of_nil in Hin.
    - intros x Hx. by apply elem_of_nil in Hx.
    - intros x Hx. by apply elem_of_nil in Hx. }
  destruct H1 as (Htab & Hall & Hdis).
  assert (Hl1 : _loaded_packages s1 = []).
  { pose proof (find_in_roots_frame cfg roots (cleared s0)) as (Hl & _).
    by rewrite Hfind in Hl. }
  pose proof (load_tables_keeps_on cfg
                (fun st => forall x, x ∈ _loaded_packages st -> x ∈ _all_packages s1)
                (fun p => p ∈ _all_packages s1)
                depth (_components s1) s1
                (fun p m st Hp HI => loaded_within_step cfg _ p m st Hp HI)
                Htab) as Hloaded.
  pose proof (load_tables_keeps cfg
                (fun st => _all_packages st = _all_packages s1
                           /\ _disabled_packages st = _disabled_packages s1)
                (fun p m st H =>
                   conj (eq_trans (proj1 (lists_step cfg p m st)) (proj1 H))
                        (eq_trans (proj2 (lists_step cfg p m st)) (proj2 H)))
                depth (_components s1) s1 (conj eq_refl eq_refl)) as [Ha Hd].
  assert (Hgoal : forall st,
             (forall x, x ∈ _loaded_packages st -> x ∈ _all_packages s1) ->
             _all_packages st = _all_packages s1 ->
             _disabled_packages st = _disabled_packages s1 ->
             name ∈ _loaded_packages st ->
             name ∈ _all_packages st
             /\ _is_ignored_package cfg name = false
             /\ (name ∉ _disabled_packages st)
             /\ match package_class_of cfg name with
                | Some c => ENABLED c | None => true end = true).
  { intros st HL HA HD Hin. rewrite HA, HD. pose proof (HL name Hin) as Hn.
    destruct (Hall name Hn) as [Hig Hen]. repeat split; try done.
    intros (c & Hc & Hoff)%Hdis. rewrite Hc in Hen. congruence. }
  assert (Hl0 : forall x, x ∈ _loaded_packages s1 -> x ∈ _all_packages s1).
  { rewrite Hl1. intros x Hx. by apply elem_of_nil in Hx. }
  specialize (Hloaded Hl0).
  unfold bind, _after_packages_loaded, set_is_loaded, emit, modify.
  destruct (load_tables cfg depth (_components s1) s1) as [s2 [[]|e|]];
    simpl in Hloaded, Ha, Hd |- *; by apply Hgoal.
Qed.

Lemma loaded_packages_were_discovered_witness :
  "app.api" ∈ _all_packages
     (fst (load_components (plain_config api_classes) 4 api_roots new_manager)).
Proof.
  apply (loaded_packages_were_discovered (plain_config api_classes) 4 api_roots
           new_manager "app.api" eq_refl).
  apply mem_true. vm_compute. reflexivity.
Defined.

(** ** Every module once *)





(** ** A sweep keeps the discovery order *)

Lemma dict_set_fresh {V} (d : list (string * V)) k v :
  k ∉ keys d -> dict_set d k v = d ++ [(k, v)].
Proof.
  unfold keys. induction d as [|[k0 v0] d IH]; simpl; [done|].
  intros [Hne Hout]%not_elem_of_cons.
  destruct (String.eqb_spec k0 k) as [->|_]; [done|]. by rewrite IH.
Qed.

Lemma sweep_order cfg components waiting s s' d :
  NoDup (keys components) ->
  (forall k, k ∈ keys waiting -> k ∉ keys components) ->
  sweep cfg components waiting s = (s', Return d) ->
  exists l dd,
    _loaded_packages s' = _loaded_packages s ++ l
    /\ d = waiting ++ dd
    /\ l `sublist_of` keys components
    /\ dd `sublist_of` components
    /\ length l + length dd = length components.
Proof.
  revert waiting s.
  induction components as [|[package modules] rest IH]; intros waiting s Hnd Hw.
  - cbn [sweep]. unfold ret. intros [= <- <-]. exists [], [].
    by rewrite !app_nil_r.
  - cbn [sweep]. unfold bind.
    pose proof (load_or_defer_result cfg package modules s) as Hr.
    destruct (load_or_defer cfg package modules s) as [s1 [b|e|]]; [|done|done].
    simpl in Hnd. apply NoDup_cons in Hnd as [Hp Hnd].
    destruct b.
    + inversion Hr as [| |? _ _ Hl]; subst.
      intros (l & dd & Hl' & -> & Hsl & Hsd & Hlen)%IH; [|done|].
      2:{ intros k Hk. specialize (Hw k Hk). simpl in Hw.
          by apply not_elem_of_cons in Hw as [_ ?]. }
      exists (package :: l), dd. rewrite Hl', Hl, <- app_assoc.
      repeat split; try done.
      * by apply sublist_skip.
      * by apply sublist_cons.
      * simpl. lia.
    + inversion Hr as [|? _ _ Hl|]; subst.
      rewrite dict_set_fresh.
      2:{ intros Hk. specialize (Hw _ Hk). simpl in Hw.
          by apply not_elem_of_cons in Hw as [? _]. }
      intros (l & dd & Hl' & -> & Hsl & Hsd & Hlen)%IH; [|done|].
      2:{ unfold keys. rewrite map_app. simpl.
          intros k [Hk|Hk%list_elem_of_singleton]%elem_of_app; [|by subst].
          specialize (Hw k Hk). simpl in Hw.
          by apply not_elem_of_cons in Hw as [_ ?]. }
      exists l, ((package, modules) :: dd). rewrite Hl', Hl, <- app_assoc.
      repeat split; try done.
      * by apply sublist_cons.
      * by apply sublist_skip.
      * simpl. lia.
Qed.



Lemma sublist_same_length {A} (l1 l2 : list A) :
  l1 `sublist_of` l2 -> length l1 = length l2 -> l1 = l2.
Proof.
  induction 1 as [|x l1 l2 Hs IH|x l1 l2 Hs IH]; simpl; intros Hlen.
  - done.
  - f_equal. apply IH. lia.
  - apply sublist_length in Hs. lia.
Qed.

(** X20. A sweep that returns without having added anything to
    [_loaded_packages] hands the whole table, unchanged, to the next level:
    [_load_components] calls itself on the same table, and nothing in the
    code stops that. *)
Theorem stalled_sweep_recurses_on_same_table cfg components s s' d :
  NoDup (keys components) ->
  components <> [] ->
  sweep cfg components [] s = (s', Return d) ->
  _loaded_packages s' = _loaded_packages s ->
  d = components
  /\ forall depth,
      _load_components cfg (S depth) components s
      = _load_components cfg depth components s'.
Proof.
  intros Hnd Hne Hrun Hsame.
  destruct (sweep_order cfg components [] s s' d Hnd)
    as (l & dd & Hl & -> & _ & Hsd & Hlen);
    [intros k Hk; by apply elem_of_nil in Hk|done|].
  rewrite Hsame in Hl.
  assert (l = []) as ->.
  { apply (f_equal length) in Hl. rewrite length_app in Hl.
    destruct l; [done|simpl in Hl; lia]. }
  simpl in Hlen. cbn [app] in *.
  assert (dd = components) as -> by (by apply sublist_same_length).
  split; [done|]. intros depth. cbn [_load_components].
  erewrite bind_return by exact Hrun.
  destruct components; [done|]. reflexivity.
Qed.

Lemma stalled_sweep_recurses_on_same_table_witness :
  _load_components (plain_config cycle_classes) 3 cycle_components
    (fst (sweep (plain_config cycle_classes) (("app", []) :: cycle_components) []
            (discovered ["app"; "app.a"; "app.b"; "app.c"] [])))
  = _load_components (plain_config cycle_classes) 2 cycle_components
      (fst (sweep (plain_config cycle_classes) cycle_components []
              (fst (sweep (plain_config cycle_classes)
                      (("app", []) :: cycle_components) []
                      (discovered ["app"; "app.a"; "app.b"; "app.c"] []))))).
Proof.
  apply (stalled_sweep_recurses_on_same_table (plain_config cycle_classes)
           cycle_components _ _ cycle_components).
  - repeat (apply NoDup_cons; split; [apply mem_false; reflexivity|]).
    apply NoDup_nil_2.
  - discriminate.
  - vm_compute. reflexivity.
  - vm_compute. reflexivity.
Defined.
